(** * BuildingLens: identification and ranking pipeline

    A shallow embedding of the server-side services of BuildingLens
    (bearing, scoring, cache, database, places, geocoding and identify
    services) together with the properties of the pipeline.

    Modelling conventions.
    - A JavaScript [number] is a real number ([R]): the rounding error
      of IEEE-754 doubles, [NaN] and the infinities are not represented.
      [Math.exp], [Math.sin], ... are the real functions, [Math.round]
      is rounding to the nearest integer with ties towards +infinity.
    - A JavaScript object used as an open bag of keys is a [gmap] from
      strings to [JsValue]; a key bound to [undefined] is kept as such.
    - An asynchronous function is the tree of the calls it awaits
      (Redis, PostgreSQL, HTTP); a run answers every call through a
      handler over an arbitrary world state, which may answer with a
      thrown error, and promises are run to their end in program order.
      Logging has no effect on control flow and is left out. *)

From Stdlib Require Import Reals Lra Lia ZArith.
From stdpp Require Import base decidable option list strings gmap sorting.

#[global] Instance Rle_decision (x y : R) : Decision (x <= y)%R := Rle_dec x y.
#[global] Instance Rlt_decision (x y : R) : Decision (x < y)%R := Rlt_dec x y.
#[global] Instance Rge_decision (x y : R) : Decision (x >= y)%R := Rge_dec x y.
#[global] Instance Rgt_decision (x y : R) : Decision (x > y)%R := Rgt_dec x y.
#[global] Instance R_eq_decision : EqDecision R := Req_dec_T.

(** ** JavaScript values and [Math] *)

Module Js.

Local Open Scope R_scope.

(** A value of type [unknown]. *)
Local Unset Elimination Schemes.
Inductive JsValue : Type :=
  | JUndefined
  | JNull
  | JBool (b : bool)
  | JNum (x : R)
  | JStr (s : string)
  | JArr (items : list JsValue)
  | JObj (fields : list (string * JsValue)).
Local Set Elimination Schemes.

(** [v !== undefined] *)
Definition is_defined (v : JsValue) : bool :=
  match v with JUndefined => false | _ => true end.

(** Truthiness of a value. *)
Definition truthy (v : JsValue) : bool :=
  match v with
  | JUndefined => false
  | JNull => false
  | JBool b => b
  | JNum x => if decide (x = 0) then false else true
  | JStr s => if decide (s = EmptyString) then false else true
  | JArr _ => true
  | JObj _ => true
  end.

(** An optional field read as a value: a missing field reads [undefined]. *)
Definition of_option {A} (inj : A -> JsValue) (o : option A) : JsValue :=
  match o with Some a => inj a | None => JUndefined end.

(** Truthiness of an optional string: [undefined] and [''] are falsy. *)
Definition truthy_string (o : option string) : bool :=
  match o with
  | Some s => if decide (s = EmptyString) then false else true
  | None => false
  end.

(** [a || b] on optional strings. *)
Definition or_string (a b : option string) : option string :=
  if truthy_string a then a else b.

Definition Math_max (a b : R) : R := Rmax a b.
Definition Math_min (a b : R) : R := Rmin a b.
Definition Math_abs (a : R) : R := Rabs a.
Definition Math_exp (a : R) : R := exp a.
Definition Math_sin (a : R) : R := sin a.
Definition Math_cos (a : R) : R := cos a.
Definition Math_sqrt (a : R) : R := sqrt a.
Definition Math_PI : R := PI.

(** [Math.round]: nearest integer, ties towards +infinity. *)
Definition Math_round (a : R) : R := IZR (Zfloor (a + 1 / 2)).

(** [Math.atan2(y, x)]: the angle of the point (x, y), in (-PI, PI]. *)
Definition Math_atan2 (y x : R) : R :=
  if decide (0 < x) then atan (y / x)
  else if decide (x < 0) then
    (if decide (0 <= y) then atan (y / x) + PI else atan (y / x) - PI)
  else if decide (0 < y) then PI / 2
  else if decide (y < 0) then - (PI / 2)
  else 0.

(** Truncation of a real towards zero. *)
Definition Ztrunc (a : R) : Z :=
  if decide (0 <= a) then Zfloor a else Zceil a.

(** [a % b]: remainder of the truncated division; it has the sign of [a]. *)
Definition rem (a b : R) : R := a - b * IZR (Ztrunc (a / b)).

End Js.

(** ** services.types.ts *)

Module Types.

Import Js.

Record Coordinates := {
  latitude : R;
  longitude : R;
}.

Inductive Source := google_places | google_geocoding | nominatim | cache.

#[global] Instance Source_eq_dec : EqDecision Source.
Proof. solve_decision. Defined.

Definition source_string (s : Source) : string :=
  match s with
  | google_places => "google_places"
  | google_geocoding => "google_geocoding"
  | nominatim => "nominatim"
  | cache => "cache"
  end.

Record BearingCalculation := {
  bc_distance : R;
  bc_bearing : R;
  bc_bearingDiff : option R;
}.

Record ScoringFactors := {
  sf_distance : R;
  sf_bearingDiff : option R;
  sf_source : Source;
  sf_hasName : bool;
  sf_hasRating : option bool;
}.

(** [Record<string, unknown>] *)
Abbreviation Metadata := (gmap string JsValue).

Record GeocodingResult := {
  gr_name : option string;
  gr_address : string;
  gr_coordinates : Coordinates;
  gr_placeId : option string;
  gr_source : Source;
  gr_metadata : option Metadata;
}.

Record PlaceResult := {
  pr_placeId : string;
  pr_name : string;
  pr_address : string;
  pr_coordinates : Coordinates;
  pr_rating : option R;
  pr_userRatingsTotal : option R;
  pr_types : option (list string);
  pr_vicinity : option string;
  pr_metadata : option Metadata;
}.

Record BuildingCandidate := {
  c_id : option string;
  c_externalId : option string;
  c_name : option string;
  c_address : string;
  c_coordinates : Coordinates;
  c_distance : R;
  c_bearing : R;
  c_bearingDiff : option R;
  c_confidence : R;
  c_source : Source;
  c_metadata : option Metadata;
}.

(** A [Date] is its time value, in milliseconds. *)
Record CachedBuilding := {
  cb_id : string;
  cb_externalId : option string;
  cb_source : string;
  cb_name : option string;
  cb_address : string;
  cb_latitude : R;
  cb_longitude : R;
  cb_metadata : option Metadata;
  cb_createdAt : R;
  cb_updatedAt : R;
  cb_expiresAt : option R;
}.

(** [Omit<CachedBuilding, 'id' | 'createdAt' | 'updatedAt'>] *)
Record BuildingData := {
  bd_externalId : option string;
  bd_source : string;
  bd_name : option string;
  bd_address : string;
  bd_latitude : R;
  bd_longitude : R;
  bd_metadata : option Metadata;
  bd_expiresAt : option R;
}.

Record IdentifyBuildingInput := {
  in_latitude : R;
  in_longitude : R;
  in_heading : option R;
  in_searchRadius : option R;
}.

Record IdentifyBuildingResult := {
  candidates : list BuildingCandidate;
  searchRadius : R;
  searchCenter : Coordinates;
  heading : option R;
  timestamp : R;
}.

End Types.

(** ** config/env.ts and config/redis.ts *)

Module Config.

Record Env := {
  SEARCH_RADIUS_METERS : R;
  REDIS_TTL_GEOCODING : R;
  REDIS_TTL_PLACES : R;
  REDIS_TTL_IDENTIFY : R;
}.

Module CACHE_TTL.
Definition GEOCODING (env : Env) : R := REDIS_TTL_GEOCODING env.
Definition PLACES (env : Env) : R := REDIS_TTL_PLACES env.
Definition IDENTIFY (env : Env) : R := REDIS_TTL_IDENTIFY env.
End CACHE_TTL.

End Config.

(** ** The outside world: Redis, PostgreSQL and the HTTP providers *)

Module World.

Import Js Types.
Local Open Scope R_scope.

(** The text [x.toFixed(digits)]: a sign and the digits of the nearest
    multiple of 10^-digits, ties away from zero. *)
Record Fixed := {
  fx_negative : bool;
  fx_scaled : Z;
  fx_digits : nat;
}.

Definition toFixed (x : R) (digits : nat) : Fixed :=
  {| fx_negative := bool_decide (x < 0);
     fx_scaled := Zfloor (Rabs x * 10 ^ digits + 1 / 2);
     fx_digits := digits |}.

(** Redis keys.  A key is the tuple of the parts that its template
    string concatenates, one record per prefix (['identify:'],
    ['places:'], ['geocode:']). *)
Record IdentifyKey := {
  ik_lat : Fixed;
  ik_lon : Fixed;
  ik_heading : option R;
  ik_radius : R;
}.

Record PlacesKey := {
  pk_lat : Fixed;
  pk_lon : Fixed;
  pk_radius : R;
}.

Record GeocodeKey := {
  gk_lat : Fixed;
  gk_lon : Fixed;
}.

(** Responses of the Google Places Nearby Search API. *)
Record RawLocation := {
  lat : R;
  lng : R;
}.

Record RawGeometry := {
  location : option RawLocation;
  location_type : JsValue;
}.

Record RawPlace := {
  place_id : string;
  name : string;
  vicinity : option string;
  formatted_address : option string;
  types : option (list string);
  geometry : option RawGeometry;
  business_status : JsValue;
  icon : JsValue;
  photos : JsValue;
  plus_code : JsValue;
  price_level : JsValue;
  rating : option R;
  user_ratings_total : option R;
}.

Record PlacesResponse := {
  places_status : string;
  places_error_message : option string;
  places_results : option (list RawPlace);
}.

(** Responses of the Google Geocoding API. *)
Record AddressComponent := {
  ac_types : option (list string);
  ac_long_name : option string;
  ac_short_name : option string;
}.

Record RawGeocode := {
  rg_formatted_address : string;
  rg_geometry : option RawGeometry;
  rg_place_id : option string;
  rg_address_components : option (list AddressComponent);
  rg_types : JsValue;
}.

Record GeocodeResponse := {
  geocode_status : string;
  geocode_results : option (list RawGeocode);
}.

(** Responses of Nominatim; [nd_lat] and [nd_lon] are the numbers that
    [parseFloat] reads, [nd_place_id] the text of the place id. *)
Record NominatimAddress := {
  na_building : option string;
  na_house : option string;
  na_amenity : option string;
  na_shop : option string;
  na_office : option string;
  na_raw : JsValue;
}.

Record NominatimData := {
  nd_error : option JsValue;
  nd_address : option NominatimAddress;
  nd_display_name : string;
  nd_lat : R;
  nd_lon : R;
  nd_place_id : option string;
  nd_osm_type : JsValue;
  nd_osm_id : JsValue;
  nd_category : JsValue;
  nd_type : JsValue;
}.

(** The SQL statements of database.service.ts with their parameters. *)
Inductive SqlStatement :=
  | SelectNear (lon lat radiusMeters : R)
  | SelectByExternalId (externalId source : string)
  | UpdateBuilding (name : option string) (address : string) (lon lat : R)
      (metadata : option Metadata) (expiresAt : option R) (id : string)
  | InsertBuilding (externalId : option string) (source : string)
      (name : option string) (address : string) (lon lat : R)
      (metadata : option Metadata) (expiresAt : option R).

(** A row of [cached_buildings]; [row_latitude] and [row_longitude] are
    the numbers that [parseFloat] reads.  A [RETURNING id] row carries
    its [row_id] alone. *)
Record Row := {
  row_id : string;
  row_external_id : option string;
  row_source : string;
  row_name : option string;
  row_address : string;
  row_latitude : R;
  row_longitude : R;
  row_metadata : option Metadata;
  row_created_at : R;
  row_updated_at : R;
  row_expires_at : option R;
}.

(** The calls that leave the process.  A Redis value is the value its
    JSON text parses to, and a response has the shape that its provider
    documents: any other text or shape makes the caller throw inside
    its [try] block, as a call that fails does. *)
Inductive Call :=
  | RedisGetIdentify (key : IdentifyKey)
  | RedisSetexIdentify (key : IdentifyKey) (ttl : R)
      (value : list BuildingCandidate)
  | RedisGetPlaces (key : PlacesKey)
  | RedisSetexPlaces (key : PlacesKey) (ttl : R) (value : list PlaceResult)
  | RedisGetGeocode (key : GeocodeKey)
  | RedisSetexGeocode (key : GeocodeKey) (ttl : R) (value : GeocodingResult)
  | HttpPlacesNearby (coordinates : Coordinates) (radius : R)
  | HttpGoogleGeocode (coordinates : Coordinates)
  | HttpNominatimReverse (coordinates : Coordinates)
  | PoolConnect
  | ClientQuery (statement : SqlStatement)
  | ClientRelease.

Definition Resp (c : Call) : Type :=
  match c with
  | RedisGetIdentify _ => option (list BuildingCandidate)
  | RedisSetexIdentify _ _ _ => unit
  | RedisGetPlaces _ => option (list PlaceResult)
  | RedisSetexPlaces _ _ _ => unit
  | RedisGetGeocode _ => option GeocodingResult
  | RedisSetexGeocode _ _ _ => unit
  | HttpPlacesNearby _ _ => PlacesResponse
  | HttpGoogleGeocode _ => GeocodeResponse
  | HttpNominatimReverse _ => option NominatimData
  | PoolConnect => unit
  | ClientQuery _ => list Row
  | ClientRelease => unit
  end.

Record Error := {
  message : string;
}.

Inductive Outcome (A : Type) : Type :=
  | Ok (a : A)
  | Throw (e : Error).
Arguments Ok {A} a.
Arguments Throw {A} e.

(** An asynchronous function, as the tree of its calls: it returns,
    throws, awaits a call that leaves the process and goes on with its
    outcome, or reads the clock. *)
Inductive Prog (A : Type) : Type :=
  | Ret (a : A)
  | Fail (e : Error)
  | Await (c : Call) (k : Outcome (Resp c) -> Prog A)
  | Now (k : R -> Prog A).
Arguments Ret {A} a.
Arguments Fail {A} e.
Arguments Await {A} c k.
Arguments Now {A} k.

Definition ret {A} (a : A) : Prog A := Ret a.

Definition throw {A} (e : Error) : Prog A := Fail e.

Fixpoint bind {A B} (m : Prog A) (f : A -> Prog B) : Prog B :=
  match m with
  | Ret a => f a
  | Fail e => Fail e
  | Await c k => Await c (fun o => bind (k o) f)
  | Now k => Now (fun t => bind (k t) f)
  end.

(** [try { m } catch (e) { handle e }] *)
Fixpoint try_catch {A} (m : Prog A) (handle : Error -> Prog A) : Prog A :=
  match m with
  | Ret a => Ret a
  | Fail e => handle e
  | Await c k => Await c (fun o => try_catch (k o) handle)
  | Now k => Now (fun t => try_catch (k t) handle)
  end.

(** [try { m } finally { cleanup }]: the cleanup runs on both exits and
    its own error, if any, is the one thrown. *)
Fixpoint try_finally {A} (m : Prog A) (cleanup : Prog unit) : Prog A :=
  match m with
  | Ret a => bind cleanup (fun _ => Ret a)
  | Fail e => bind cleanup (fun _ => Fail e)
  | Await c k => Await c (fun o => try_finally (k o) cleanup)
  | Now k => Now (fun t => try_finally (k t) cleanup)
  end.

(** [await] of a call that leaves the process. *)
Definition perform (c : Call) : Prog (Resp c) :=
  Await c (fun o => match o with Ok a => Ret a | Throw e => Fail e end).

(** [Date.now()] *)
Definition Date_now : Prog R := Now Ret.

(** A promise run to its end: fulfilled with a value or rejected with
    an error. *)
Definition settle {A} (m : Prog A) : Prog (Outcome A) :=
  try_catch (bind m (fun a => Ret (Ok a))) (fun e => Ret (Throw e)).

(** [await Promise.allSettled(ms)]: every promise is run, its outcome is
    recorded, and nothing is thrown. *)
Fixpoint Promise_allSettled {A} (ms : list (Prog A)) : Prog (list (Outcome A)) :=
  match ms with
  | [] => Ret []
  | m :: ms' =>
    bind (settle m) (fun o =>
    bind (Promise_allSettled ms') (fun os => Ret (o :: os)))
  end.

(** A synchronous computation that may throw, inside an asynchronous one. *)
Definition lift {A} (o : Outcome A) : Prog A :=
  match o with Ok a => Ret a | Throw e => Fail e end.

(** How the world answers: every call returns or throws and moves the
    world on; the clock is read without a call. *)
Record Handler (W : Type) := {
  answer : forall c : Call, W -> Outcome (Resp c) * W;
  clock : W -> R;
}.
Arguments answer {W} h c w.
Arguments clock {W} h w.

(** One run of a piece of code: what it returned or threw, the world it
    left, and the calls it made, in order. *)
Record Run (W A : Type) := {
  outcome : Outcome A;
  world : W;
  trace : list Call;
}.
Arguments outcome {W A} r.
Arguments world {W A} r.
Arguments trace {W A} r.

Fixpoint run {W A} (h : Handler W) (m : Prog A) (w : W) : Run W A :=
  match m with
  | Ret a => {| outcome := Ok a; world := w; trace := [] |}
  | Fail e => {| outcome := Throw e; world := w; trace := [] |}
  | Await c k =>
    let r := run h (k (answer h c w).1) (answer h c w).2 in
    {| outcome := outcome r; world := world r; trace := c :: trace r |}
  | Now k => run h (k (clock h w)) w
  end.

(** [xs.map(f)] for a callback that may throw. *)
Fixpoint map_throwing {A B} (f : A -> Outcome B) (xs : list A) : Outcome (list B) :=
  match xs with
  | [] => Ok []
  | x :: xs' =>
    match f x with
    | Ok b =>
      match map_throwing f xs' with
      | Ok bs => Ok (b :: bs)
      | Throw e => Throw e
      end
    | Throw e => Throw e
    end
  end.

(** [Array.prototype.sort(compare)].  The sort is stable (ECMAScript
    2019), so for a consistent comparator its result does not depend on
    the engine: [x] goes before the elements it does not have to
    follow. *)
Fixpoint sort_insert {A} (compare : A -> A -> R) (x : A) (l : list A) : list A :=
  match l with
  | [] => [x]
  | y :: l' =>
    if decide (compare x y <= 0) then x :: y :: l'
    else y :: sort_insert compare x l'
  end.

Fixpoint Array_sort {A} (compare : A -> A -> R) (l : list A) : list A :=
  match l with
  | [] => []
  | x :: l' => sort_insert compare x (Array_sort compare l')
  end.

End World.

Declare Scope async_scope.
Delimit Scope async_scope with async.
Notation "'let*' x ':=' m 'in' k" :=
  (World.bind m (fun x => k))
  (at level 10, x binder, m at level 100, k at level 200) : async_scope.
Notation "m ';;' k" :=
  (World.bind m (fun _ => k))
  (at level 100, k at level 200, right associativity) : async_scope.

(** ** bearing.service.ts *)

Module Bearing.

Import Js Types.
Local Open Scope R_scope.

Definition EARTH_RADIUS_METERS : R := 6371000.

Definition toRadians (degrees : R) : R := degrees * (Math_PI / 180).

Definition toDegrees (radians : R) : R := radians * (180 / Math_PI).

Definition normalizeBearing (bearing : R) : R :=
  let normalized := rem bearing 360 in
  if decide (normalized < 0) then normalized + 360 else normalized.

Definition calculateDistance (from to : Coordinates) : R :=
  let lat1Rad := toRadians (latitude from) in
  let lat2Rad := toRadians (latitude to) in
  let deltaLat := toRadians (latitude to - latitude from) in
  let deltaLon := toRadians (longitude to - longitude from) in
  let a :=
    Math_sin (deltaLat / 2) * Math_sin (deltaLat / 2) +
    Math_cos lat1Rad * Math_cos lat2Rad *
      Math_sin (deltaLon / 2) * Math_sin (deltaLon / 2) in
  let c := 2 * Math_atan2 (Math_sqrt a) (Math_sqrt (1 - a)) in
  EARTH_RADIUS_METERS * c.

Definition calculateBearing (from to : Coordinates) : R :=
  let lat1Rad := toRadians (latitude from) in
  let lat2Rad := toRadians (latitude to) in
  let deltaLon := toRadians (longitude to - longitude from) in
  let y := Math_sin deltaLon * Math_cos lat2Rad in
  let x :=
    Math_cos lat1Rad * Math_sin lat2Rad -
    Math_sin lat1Rad * Math_cos lat2Rad * Math_cos deltaLon in
  let bearingRad := Math_atan2 y x in
  let bearingDeg := toDegrees bearingRad in
  normalizeBearing bearingDeg.

Definition calculateBearingDifference (bearing1 bearing2 : R) : R :=
  let normalized1 := normalizeBearing bearing1 in
  let normalized2 := normalizeBearing bearing2 in
  let diff := Math_abs (normalized1 - normalized2) in
  if decide (diff > 180) then 360 - diff else diff.

Definition calculateBearingAndDistance
    (from to : Coordinates) (userHeading : option R) : BearingCalculation :=
  let distance := calculateDistance from to in
  let bearing := calculateBearing from to in
  {| bc_distance := distance;
     bc_bearing := bearing;
     bc_bearingDiff :=
       match userHeading with
       | Some h => Some (calculateBearingDifference bearing h)
       | None => None
       end |}.

End Bearing.

(** ** scoring.service.ts *)

Module Scoring.

Import Js Types.
Local Open Scope R_scope.

Definition SOURCE_WEIGHTS (s : Source) : R :=
  match s with
  | google_places => 1.0
  | google_geocoding => 0.8
  | nominatim => 0.6
  | cache => 0.7
  end.

Module SCORING_WEIGHTS.
Definition distance : R := 0.4.
Definition bearing : R := 0.3.
Definition source : R := 0.2.
Definition metadata : R := 0.1.
End SCORING_WEIGHTS.

Module DISTANCE_PARAMS.
Definition optimalDistance : R := 10.
Definition decayRate : R := 0.05.
End DISTANCE_PARAMS.

Module BEARING_PARAMS.
Definition perfectAlignment : R := 15.
Definition maxPenalty : R := 90.
End BEARING_PARAMS.

Definition calculateDistanceScore (distance : R) : R :=
  if decide (distance <= DISTANCE_PARAMS.optimalDistance) then 1.0
  else
    let excessDistance := distance - DISTANCE_PARAMS.optimalDistance in
    let score := Math_exp (- DISTANCE_PARAMS.decayRate * excessDistance) in
    Math_max 0 (Math_min 1 score).

Definition calculateBearingScore (bearingDiff : option R) : R :=
  match bearingDiff with
  | None => 0.5
  | Some bearingDiff =>
    if decide (bearingDiff <= BEARING_PARAMS.perfectAlignment) then 1.0
    else if decide (bearingDiff >= BEARING_PARAMS.maxPenalty) then 0.0
    else
      let score :=
        1 - (bearingDiff - BEARING_PARAMS.perfectAlignment) /
            (BEARING_PARAMS.maxPenalty - BEARING_PARAMS.perfectAlignment) in
      Math_max 0 (Math_min 1 score)
  end.

Definition calculateSourceScore (source : Source) : R := SOURCE_WEIGHTS source.

Definition calculateMetadataScore (hasName : bool) (hasRating : option bool) : R :=
  let score := 0 in
  let score := if hasName then score + 0.6 else score in
  let score := if default false hasRating then score + 0.4 else score in
  Math_min 1 score.

Definition calculateConfidenceScore (factors : ScoringFactors) : R :=
  let distanceScore := calculateDistanceScore (sf_distance factors) in
  let bearingScore := calculateBearingScore (sf_bearingDiff factors) in
  let sourceScore := calculateSourceScore (sf_source factors) in
  let metadataScore :=
    calculateMetadataScore (sf_hasName factors) (sf_hasRating factors) in
  let rawScore :=
    distanceScore * SCORING_WEIGHTS.distance +
    bearingScore * SCORING_WEIGHTS.bearing +
    sourceScore * SCORING_WEIGHTS.source +
    metadataScore * SCORING_WEIGHTS.metadata in
  let percentage := rawScore * 100 in
  Math_round (percentage * 100) / 100.

(** [compareByConfidence] on the confidences of the two candidates. *)
Definition compareByConfidence (a_confidence b_confidence : R) : R :=
  b_confidence - a_confidence.

End Scoring.

(** The scoring contract as the specification words it. *)

Module ScoringSpec.

Import Types.
Local Open Scope R_scope.



Definition B (bearingDiff : option R) : R :=
  match bearingDiff with
  | None => 0.5
  | Some b =>
    if decide (b <= 15) then 1
    else if decide (b >= 90) then 0
    else 1 - (b - 15) / (90 - 15)
  end.

Definition S (source : Source) : R :=
  match source with
  | google_places => 1
  | google_geocoding => 0.8
  | nominatim => 0.6
  | cache => 0.7
  end.




End ScoringSpec.

(** ** database.service.ts *)

Module Database.

Import Js Types World.
Local Open Scope async_scope.

Definition rowToCachedBuilding (row : Row) : CachedBuilding :=
  {| cb_id := row_id row;
     cb_externalId := row_external_id row;
     cb_source := row_source row;
     cb_name := row_name row;
     cb_address := row_address row;
     cb_latitude := row_latitude row;
     cb_longitude := row_longitude row;
     cb_metadata := row_metadata row;
     cb_createdAt := row_created_at row;
     cb_updatedAt := row_updated_at row;
     cb_expiresAt := row_expires_at row |}.

(** [JSON.stringify] of a metadata object: keys bound to [undefined]
    are left out. *)
Definition JSON_stringify (metadata : Metadata) : Metadata :=
  filter (fun kv => is_defined kv.2 = true) metadata.

Definition getBuildingByExternalId (externalId source : string)
    : Prog (option CachedBuilding) :=
  let* client := perform PoolConnect in
  try_finally
    (try_catch
       (let* rows := perform (ClientQuery (SelectByExternalId externalId source)) in
        match rows with
        | [] => ret None
        | row :: _ => ret (Some (rowToCachedBuilding row))
        end)
       (fun error => throw error))
    (perform ClientRelease).

Definition findBuildingsNearLocation (coordinates : Coordinates)
    (radiusMeters : R) : Prog (list CachedBuilding) :=
  let* client := perform PoolConnect in
  try_finally
    (try_catch
       (let* rows :=
          perform (ClientQuery (SelectNear (longitude coordinates)
                                    (latitude coordinates) radiusMeters)) in
        ret (map rowToCachedBuilding rows))
       (fun error => throw error))
    (perform ClientRelease).

(** The id that [RETURNING id] hands back, [result.rows[0]?.id]. *)
Definition returned_id (rows : list Row) : option string :=
  match rows with
  | [] => None
  | row :: _ => Some (row_id row)
  end.

Definition saveBuildingToDatabase (building : BuildingData)
    : Prog (option string) :=
  let* client := perform PoolConnect in
  try_finally
    (try_catch
       (let* existingId :=
          match bd_externalId building with
          | Some externalId =>
            if truthy_string (Some externalId) then
              let* existing :=
                getBuildingByExternalId externalId (bd_source building) in
              ret (or_string (cb_id <$> existing) None)
            else ret None
          | None => ret None
          end in
        let statement :=
          match existingId with
          | Some existingId =>
            UpdateBuilding
              (or_string (bd_name building) None)
              (bd_address building)
              (bd_longitude building)
              (bd_latitude building)
              (JSON_stringify <$> bd_metadata building)
              (bd_expiresAt building)
              existingId
          | None =>
            InsertBuilding
              (or_string (bd_externalId building) None)
              (bd_source building)
              (or_string (bd_name building) None)
              (bd_address building)
              (bd_longitude building)
              (bd_latitude building)
              (JSON_stringify <$> bd_metadata building)
              (bd_expiresAt building)
          end in
        let* rows := perform (ClientQuery statement) in
        ret (returned_id rows))
       (fun error => throw error))
    (perform ClientRelease).

End Database.

(** ** cache.service.ts *)

Module Cache.

Import Js Types Config World Database.
Local Open Scope async_scope.
Local Open Scope R_scope.

Section WithEnv.

Context (env : Env).

Definition getIdentifyCacheKey (lat lon : R) (heading : option R)
    (radius : R) : IdentifyKey :=
  let roundedLat := toFixed lat 5 in
  let roundedLon := toFixed lon 5 in
  let headingStr := Math_round <$> heading in
  {| ik_lat := roundedLat; ik_lon := roundedLon;
     ik_heading := headingStr; ik_radius := radius |}.

Definition cachedBuildingToCandidate (building : CachedBuilding)
    : BuildingCandidate :=
  {| c_id := Some (cb_id building);
     c_externalId := cb_externalId building;
     c_name := cb_name building;
     c_address := cb_address building;
     c_coordinates :=
       {| latitude := cb_latitude building;
          longitude := cb_longitude building |};
     c_distance := 0;
     c_bearing := 0;
     c_bearingDiff := None;
     c_confidence := 0;
     c_source := cache;
     c_metadata := cb_metadata building |}.

Definition getCachedBuildings (coordinates : Coordinates) (radiusMeters : R)
    : Prog (list BuildingCandidate) :=
  try_catch
    (let* cachedBuildings := findBuildingsNearLocation coordinates radiusMeters in
     let candidates := map cachedBuildingToCandidate cachedBuildings in
     ret candidates)
    (fun error => ret []).

(** [(candidate.metadata?.originalSource as string) || 'cache'], the
    property read as the text that the cast takes it for. *)
Definition originalSource (metadata : option Metadata) : string :=
  match metadata ≫= (fun m => m !! "originalSource") with
  | Some (JStr s) => if decide (s = EmptyString) then "cache" else s
  | _ => "cache"
  end.

(** The metadata object [{...candidate.metadata, distance, bearing,
    bearingDiff, confidence}]: the four computed properties are written
    after the spread ones. *)
Definition mergedMetadata (candidate : BuildingCandidate) : Metadata :=
  <["confidence" := JNum (c_confidence candidate)]>
    (<["bearingDiff" := of_option JNum (c_bearingDiff candidate)]>
       (<["bearing" := JNum (c_bearing candidate)]>
          (<["distance" := JNum (c_distance candidate)]>
             (default ∅ (c_metadata candidate))))).

Definition saveBuildingToCache (candidate : BuildingCandidate) (ttlSeconds : R)
    : Prog (option string) :=
  try_catch
    (let* now := Date_now in
     let expiresAt := now + ttlSeconds * 1000 in
     let dbSource :=
       if decide (c_source candidate = cache)
       then originalSource (c_metadata candidate)
       else source_string (c_source candidate) in
     let buildingData :=
       {| bd_externalId := c_externalId candidate;
          bd_source := dbSource;
          bd_name := c_name candidate;
          bd_address := c_address candidate;
          bd_latitude := latitude (c_coordinates candidate);
          bd_longitude := longitude (c_coordinates candidate);
          bd_metadata := Some (mergedMetadata candidate);
          bd_expiresAt := Some expiresAt |} in
     let* id := saveBuildingToDatabase buildingData in
     ret id)
    (fun error => throw error).

Definition getCachedIdentifyResults (coordinates : Coordinates)
    (heading : option R) (radius : R) : Prog (option (list BuildingCandidate)) :=
  try_catch
    (let cacheKey :=
       getIdentifyCacheKey (latitude coordinates) (longitude coordinates)
         heading radius in
     let* cached := perform (RedisGetIdentify cacheKey) in
     match cached with
     | None => ret None
     | Some candidates => ret (Some candidates)
     end)
    (fun error => ret None).

Definition cacheIdentifyResults (coordinates : Coordinates)
    (heading : option R) (radius : R) (candidates : list BuildingCandidate)
    : Prog unit :=
  try_catch
    (let cacheKey :=
       getIdentifyCacheKey (latitude coordinates) (longitude coordinates)
         heading radius in
     perform (RedisSetexIdentify cacheKey (CACHE_TTL.IDENTIFY env) candidates))
    (fun error => ret tt).

End WithEnv.

End Cache.

(** ** places.service.ts *)

Module Places.

Import Js Types Config World.
Local Open Scope async_scope.
Local Open Scope R_scope.

Definition BUILDING_TYPES : list string :=
  ["establishment"; "point_of_interest"; "premise"; "street_address"].

Definition getCacheKey (lat lon radius : R) : PlacesKey :=
  let roundedLat := toFixed lat 5 in
  let roundedLon := toFixed lon 5 in
  {| pk_lat := roundedLat; pk_lon := roundedLon; pk_radius := radius |}.

(** The callback of [places.filter]. *)
Definition isBuildingPlace (place : RawPlace) : bool :=
  let hasRelevantType :=
    match types place with
    | Some ts => existsb (fun type => bool_decide (type ∈ BUILDING_TYPES)) ts
    | None => false
    end in
  hasRelevantType &&
  match geometry place ≫= location with Some _ => true | None => false end.

(** The callback of [.map]; reading the location of a place without
    geometry throws a [TypeError]. *)
Definition toPlaceResult (place : RawPlace) : Outcome PlaceResult :=
  match geometry place ≫= location with
  | None => Throw {| message := "Cannot read properties of undefined" |}
  | Some loc =>
    Ok {| pr_placeId := place_id place;
          pr_name := name place;
          pr_address :=
            default EmptyString
              (or_string (or_string (vicinity place) (formatted_address place))
                 (Some EmptyString));
          pr_coordinates := {| latitude := lat loc; longitude := lng loc |};
          pr_vicinity := vicinity place;
          pr_types := types place;
          pr_metadata :=
            Some (<["businessStatus" := business_status place]>
                    (<["icon" := icon place]>
                       (<["photos" := photos place]>
                          (<["plusCode" := plus_code place]>
                             (<["priceLevel" := price_level place]> ∅)))));
          pr_rating := rating place;
          pr_userRatingsTotal := user_ratings_total place |}
  end.

Section WithEnv.

Context (env : Env).

Definition findNearbyPlaces (coordinates : Coordinates) (radius : R)
    : Prog (list PlaceResult) :=
  let cacheKey :=
    getCacheKey (latitude coordinates) (longitude coordinates) radius in
  try_catch
    (let* cached := perform (RedisGetPlaces cacheKey) in
     match cached with
     | Some placeResults => ret placeResults
     | None =>
       let* response := perform (HttpPlacesNearby coordinates radius) in
       if bool_decide (places_status response ≠ "OK") &&
          bool_decide (places_status response ≠ "ZERO_RESULTS")
       then
         if bool_decide (places_status response = "ZERO_RESULTS")
         then ret []
         else throw {| message :=
                         "Google Places API error: " +:+ places_status response |}
       else
         let places := default [] (places_results response) in
         let* placeResults :=
           lift (map_throwing toPlaceResult (filter isBuildingPlace places)) in
         perform (RedisSetexPlaces cacheKey (CACHE_TTL.PLACES env) placeResults) ;;
         ret placeResults
     end)
    (fun error => ret []).

End WithEnv.

End Places.

(** ** geocoding.service.ts *)

Module Geocoding.

Import Js Types Config World.
Local Open Scope async_scope.
Local Open Scope R_scope.

Definition getCacheKey (lat lon : R) : GeocodeKey :=
  let roundedLat := toFixed lat 6 in
  let roundedLon := toFixed lon 6 in
  {| gk_lat := roundedLat; gk_lon := roundedLon |}.

Definition stringsValue (o : option (list string)) : JsValue :=
  of_option (fun ts => JArr (map JStr ts)) o.

Definition componentValue (component : AddressComponent) : JsValue :=
  JObj [("long_name", of_option JStr (ac_long_name component));
        ("short_name", of_option JStr (ac_short_name component));
        ("types", stringsValue (ac_types component))].

(** The loop over the address components: the long name of the first
    premise or point of interest. *)
Fixpoint componentName (components : list AddressComponent) : option string :=
  match components with
  | [] => None
  | component :: rest =>
    if match ac_types component with
       | Some ts =>
         bool_decide ("premise" ∈ ts) || bool_decide ("point_of_interest" ∈ ts)
       | None => false
       end
    then ac_long_name component
    else componentName rest
  end.

Section WithEnv.

Context (env : Env).

Definition geocodeWithGoogle (coordinates : Coordinates)
    : Prog (option GeocodingResult) :=
  try_catch
    (let* response := perform (HttpGoogleGeocode coordinates) in
     match geocode_results response with
     | Some (result :: _) =>
       if bool_decide (geocode_status response ≠ "OK") then ret None
       else
         let addressComponents := default [] (rg_address_components result) in
         let name := componentName addressComponents in
         match rg_geometry result with
         | Some geometry =>
           match location geometry with
           | Some loc =>
             ret (Some
               {| gr_name := name;
                  gr_address := rg_formatted_address result;
                  gr_coordinates :=
                    {| latitude := lat loc; longitude := lng loc |};
                  gr_placeId := rg_place_id result;
                  gr_source := google_geocoding;
                  gr_metadata :=
                    Some (<["addressComponents" :=
                              of_option (fun cs => JArr (map componentValue cs))
                                (rg_address_components result)]>
                            (<["locationType" := location_type geometry]>
                               (<["types" := rg_types result]> ∅))) |})
           | None => throw {| message := "Cannot read properties of undefined" |}
           end
         | None => throw {| message := "Cannot read properties of undefined" |}
         end
     | _ => ret None
     end)
    (fun error => ret None).

Definition geocodeWithNominatim (coordinates : Coordinates)
    : Prog (option GeocodingResult) :=
  try_catch
    (let* response := perform (HttpNominatimReverse coordinates) in
     match response with
     | None => ret None
     | Some data =>
       if truthy (of_option (fun error => error) (nd_error data)) then ret None
       else
         let name :=
           match nd_address data with
           | Some address =>
             or_string (na_building address)
               (or_string (na_house address)
                  (or_string (na_amenity address)
                     (or_string (na_shop address)
                        (or_string (na_office address) None))))
           | None => None
           end in
         ret (Some
           {| gr_name := name;
              gr_address := nd_display_name data;
              gr_coordinates :=
                {| latitude := nd_lat data; longitude := nd_lon data |};
              gr_placeId := nd_place_id data;
              gr_source := nominatim;
              gr_metadata :=
                Some (<["osmType" := nd_osm_type data]>
                        (<["osmId" := nd_osm_id data]>
                           (<["category" := nd_category data]>
                              (<["type" := nd_type data]>
                                 (<["address" :=
                                      of_option na_raw (nd_address data)]> ∅))))) |})
     end)
    (fun error => ret None).

Definition reverseGeocode (coordinates : Coordinates)
    : Prog (option GeocodingResult) :=
  let cacheKey := getCacheKey (latitude coordinates) (longitude coordinates) in
  try_catch
    (let* cached := perform (RedisGetGeocode cacheKey) in
     match cached with
     | Some geocodingResult => ret (Some geocodingResult)
     | None =>
       let* result := geocodeWithGoogle coordinates in
       let* result :=
         match result with
         | None => geocodeWithNominatim coordinates
         | Some _ => ret result
         end in
       match result with
       | Some geocodingResult =>
         perform (RedisSetexGeocode cacheKey (CACHE_TTL.GEOCODING env)
                      geocodingResult) ;;
         ret result
       | None => ret result
       end
     end)
    (fun error => ret None).

End WithEnv.

End Geocoding.

(** ** identify.service.ts *)

Module Identify.

Import Js Types Config World Bearing Scoring Cache.
Local Open Scope async_scope.
Local Open Scope R_scope.

(** The candidate pushed for a place of the places adapter. *)
Definition placeCandidate (place : PlaceResult) : BuildingCandidate :=
  {| c_id := None;
     c_externalId := Some (pr_placeId place);
     c_name := Some (pr_name place);
     c_address := pr_address place;
     c_coordinates := pr_coordinates place;
     c_distance := 0;
     c_bearing := 0;
     c_bearingDiff := None;
     c_confidence := 0;
     c_source := google_places;
     c_metadata :=
       Some (default ∅ (pr_metadata place) ∪
             (<["rating" := of_option JNum (pr_rating place)]>
                (<["userRatingsTotal" :=
                     of_option JNum (pr_userRatingsTotal place)]>
                   (<["types" := Geocoding.stringsValue (pr_types place)]> ∅)))) |}.

(** The candidate pushed for the result of the geocoding adapter. *)
Definition geocodeCandidate (geocodeResult : GeocodingResult) : BuildingCandidate :=
  {| c_id := None;
     c_externalId := gr_placeId geocodeResult;
     c_name := gr_name geocodeResult;
     c_address := gr_address geocodeResult;
     c_coordinates := gr_coordinates geocodeResult;
     c_distance := 0;
     c_bearing := 0;
     c_bearingDiff := None;
     c_confidence := 0;
     c_source := gr_source geocodeResult;
     c_metadata := gr_metadata geocodeResult |}.

(** Step 3, the body of the loop: distance, bearing and bearing
    difference of a candidate are set. *)
Definition enrichCandidate (userCoordinates : Coordinates)
    (heading : option R) (candidate : BuildingCandidate) : BuildingCandidate :=
  let bearingCalc :=
    calculateBearingAndDistance userCoordinates (c_coordinates candidate)
      heading in
  {| c_id := c_id candidate;
     c_externalId := c_externalId candidate;
     c_name := c_name candidate;
     c_address := c_address candidate;
     c_coordinates := c_coordinates candidate;
     c_distance := bc_distance bearingCalc;
     c_bearing := bc_bearing bearingCalc;
     c_bearingDiff := bc_bearingDiff bearingCalc;
     c_confidence := c_confidence candidate;
     c_source := c_source candidate;
     c_metadata := c_metadata candidate |}.

(** [candidate.metadata?.rating !== undefined] *)
Definition hasRating (metadata : option Metadata) : bool :=
  match metadata ≫= (fun m => m !! "rating") with
  | Some v => is_defined v
  | None => false
  end.

(** Step 4, the body of the loop: the confidence of a candidate is set. *)
Definition scoreCandidate (candidate : BuildingCandidate) : BuildingCandidate :=
  {| c_id := c_id candidate;
     c_externalId := c_externalId candidate;
     c_name := c_name candidate;
     c_address := c_address candidate;
     c_coordinates := c_coordinates candidate;
     c_distance := c_distance candidate;
     c_bearing := c_bearing candidate;
     c_bearingDiff := c_bearingDiff candidate;
     c_confidence :=
       calculateConfidenceScore
         {| sf_distance := c_distance candidate;
            sf_bearingDiff := c_bearingDiff candidate;
            sf_source := c_source candidate;
            sf_hasName := truthy_string (c_name candidate);
            sf_hasRating := Some (hasRating (c_metadata candidate)) |};
     c_source := c_source candidate;
     c_metadata := c_metadata candidate |}.

(** Step 5: [candidates.sort((a, b) => b.confidence - a.confidence)] *)
Definition sortCandidates (candidates : list BuildingCandidate)
    : list BuildingCandidate :=
  Array_sort (fun a b => c_confidence b - c_confidence a) candidates.

(** Steps 3 to 5 on the gathered candidates. *)
Definition rankCandidates (userCoordinates : Coordinates) (heading : option R)
    (candidates : list BuildingCandidate) : list BuildingCandidate :=
  sortCandidates
    (map scoreCandidate (map (enrichCandidate userCoordinates heading) candidates)).

(** Step 6, the candidates that are cached to the database. *)
Definition topCandidates (candidates : list BuildingCandidate)
    : list BuildingCandidate :=
  take 5
    (filter (fun c => c_source c ≠ cache /\ c_confidence c > 30) candidates).

Section WithEnv.

Context (env : Env).

(** The places adapter that [identifyBuilding] calls. *)
Variable findNearbyPlaces : Coordinates -> R -> Prog (list PlaceResult).

(** Step 2: the candidates of the database cache, of the places adapter
    and, when these are fewer than three, of the geocoding adapter. *)
Definition gatherCandidates (userCoordinates : Coordinates) (searchRadius : R)
    : Prog (list BuildingCandidate) :=
  let candidates := [] in
  let* cachedBuildings := getCachedBuildings userCoordinates searchRadius in
  let candidates := candidates ++ cachedBuildings in
  let* nearbyPlaces := findNearbyPlaces userCoordinates searchRadius in
  let candidates := candidates ++ map placeCandidate nearbyPlaces in
  if decide (length candidates < 3)%nat then
    let* geocodeResult := Geocoding.reverseGeocode env userCoordinates in
    match geocodeResult with
    | Some geocodeResult => ret (candidates ++ [geocodeCandidate geocodeResult])
    | None => ret candidates
    end
  else ret candidates.

(** Step 6: the top candidates go to the database, the complete list to
    Redis. *)
Definition persistResults (userCoordinates : Coordinates) (heading : option R)
    (searchRadius : R) (candidates : list BuildingCandidate) : Prog unit :=
  Promise_allSettled
    (map (fun candidate =>
            saveBuildingToCache candidate (CACHE_TTL.PLACES env))
       (topCandidates candidates)) ;;
  cacheIdentifyResults env userCoordinates heading searchRadius candidates.

(** [input.searchRadius || env.SEARCH_RADIUS_METERS] *)
Definition searchRadiusOf (input : IdentifyBuildingInput) : R :=
  match in_searchRadius input with
  | Some r => if decide (r = 0) then SEARCH_RADIUS_METERS env else r
  | None => SEARCH_RADIUS_METERS env
  end.

Definition userCoordinatesOf (input : IdentifyBuildingInput) : Coordinates :=
  {| latitude := in_latitude input; longitude := in_longitude input |}.

(** The body of [identifyBuilding], over the places adapter it imports. *)
Definition identifyBuildingWith (input : IdentifyBuildingInput)
    : Prog IdentifyBuildingResult :=
  let searchRadius := searchRadiusOf input in
  let userCoordinates := userCoordinatesOf input in
  try_catch
    (let* cachedResults :=
       getCachedIdentifyResults userCoordinates (in_heading input)
         searchRadius in
     match cachedResults with
     | Some cachedResults =>
       let* now := Date_now in
       ret {| candidates := cachedResults;
              searchRadius := searchRadius;
              searchCenter := userCoordinates;
              heading := in_heading input;
              timestamp := now |}
     | None =>
       let* candidates := gatherCandidates userCoordinates searchRadius in
       let candidates :=
         rankCandidates userCoordinates (in_heading input) candidates in
       persistResults userCoordinates (in_heading input) searchRadius
         candidates ;;
       let* now := Date_now in
       ret {| candidates := candidates;
              searchRadius := searchRadius;
              searchCenter := userCoordinates;
              heading := in_heading input;
              timestamp := now |}
     end)
    (fun error => throw error).

End WithEnv.

(** [identifyBuilding] with the places adapter of places.service.ts. *)
Definition identifyBuilding (env : Env) (input : IdentifyBuildingInput)
    : Prog IdentifyBuildingResult :=
  identifyBuildingWith env (Places.findNearbyPlaces env) input.


End Identify.

(** ** What a run shows *)

Module Observe.

Import Types World.

(** Code that returns in every run: whatever the world answers, it does
    not throw. *)
Definition returns {A} (m : Prog A) : Prop :=
  forall (W : Type) (h : Handler W) (w : W),
    exists a, outcome (run h m w) = Ok a.

(** Code all of whose calls, in every run, satisfy [Q]. *)
Fixpoint calls_only {A} (Q : Call -> Prop) (m : Prog A) : Prop :=
  match m with
  | Ret _ => True
  | Fail _ => True
  | Await c k => Q c /\ forall o, calls_only Q (k o)
  | Now k => forall t, calls_only Q (k t)
  end.


(** The calls of the geocoding adapter. *)
Definition is_geocoding_call (c : Call) : bool :=
  match c with
  | RedisGetGeocode _ => true
  | RedisSetexGeocode _ _ _ => true
  | HttpGoogleGeocode _ => true
  | HttpNominatimReverse _ => true
  | _ => false
  end.




End Observe.

(** ** Sample worlds *)

Module Scenario.

Import Js Types Config World.
Local Open Scope R_scope.

(** The defaults of env.ts. *)
Definition env : Env :=
  {| SEARCH_RADIUS_METERS := 100;
     REDIS_TTL_GEOCODING := 2592000;
     REDIS_TTL_PLACES := 604800;
     REDIS_TTL_IDENTIFY := 3600 |}.

Definition input : IdentifyBuildingInput :=
  {| in_latitude := 37.7749;
     in_longitude := -122.4194;
     in_heading := Some 270;
     in_searchRadius := Some 500 |}.

(** A row of the building cache. *)
Definition cityHall : Row :=
  {| row_id := "7";
     row_external_id := Some "node/42";
     row_source := "nominatim";
     row_name := Some "City Hall";
     row_address := "1 Main Street";
     row_latitude := 37.7751;
     row_longitude := -122.4194;
     row_metadata := None;
     row_created_at := 0;
     row_updated_at := 0;
     row_expires_at := None |}.

Definition down : Error := {| message := "connect ECONNREFUSED" |}.

(** A world whose result cache answers [stored] and whose building
    cache holds [rows]; the adapter caches are empty, the places
    provider finds nothing and both geocoding providers are down.
    Writes to the building cache succeed when [writable] and fail
    otherwise. *)
Definition answers (stored : option (list BuildingCandidate))
    (rows : list Row) (writable : bool) (c : Call) : Outcome (Resp c) :=
  match c return Outcome (Resp c) with
  | RedisGetIdentify _ => Ok stored
  | RedisSetexIdentify _ _ _ => Ok tt
  | RedisGetPlaces _ => Ok None
  | RedisSetexPlaces _ _ _ => Ok tt
  | RedisGetGeocode _ => Ok None
  | RedisSetexGeocode _ _ _ => Ok tt
  | HttpPlacesNearby _ _ =>
    Ok {| places_status := "ZERO_RESULTS";
          places_error_message := None;
          places_results := None |}
  | HttpGoogleGeocode _ => Throw down
  | HttpNominatimReverse _ => Throw down
  | PoolConnect => Ok tt
  | ClientQuery (SelectNear _ _ _) => Ok rows
  | ClientQuery (SelectByExternalId _ _) => Ok []
  | ClientQuery _ => if writable then Ok [cityHall] else Throw down
  | ClientRelease => Ok tt
  end.

Definition handler (stored : option (list BuildingCandidate))
    (rows : list Row) (writable : bool) : Handler unit :=
  {| answer := fun c w => (answers stored rows writable c, w);
     clock := fun _ => 0 |}.

(** A candidate of the places adapter, scored, whose provider metadata
    has a key named like a computed one. *)
Definition cafe : BuildingCandidate :=
  {| c_id := None;
     c_externalId := Some "ChIJ-cafe";
     c_name := Some "Corner Cafe";
     c_address := "2 Main Street";
     c_coordinates := {| latitude := 37.7750; longitude := -122.4194 |};
     c_distance := 11;
     c_bearing := 0;
     c_bearingDiff := None;
     c_confidence := 72.5;
     c_source := google_places;
     c_metadata :=
       Some (<["confidence" := JStr "high"]> (<["rating" := JNum 4]> ∅)) |}.

End Scenario.

(** ** The table [cached_buildings] *)

Module Postgres.

Import Js Types World.

(** PostgreSQL running the statements of database.service.ts on the
    table of migration 002, a list of rows.  The generator of ids
    ([uuid_generate_v4()]), the time ([NOW()]) and the geography search
    of [SelectNear] are parameters; the pool always has a client. *)
Section Engine.

Context (uuid : list Row -> string) (now : R).
Context (near : R -> R -> R -> list Row -> list Row).

Definition matches (externalId source : string) (row : Row) : Prop :=
  row_external_id row = Some externalId /\ row_source row = source.

#[global] Instance matches_dec externalId source row :
  Decision (matches externalId source row).
Proof. unfold matches. apply _. Defined.

(** [UPDATE ... SET name, address, location, metadata, updated_at,
    expires_at WHERE id = $7] on one row. *)
Definition update (name : option string) (address : string) (lon lat : R)
    (metadata : option Metadata) (expiresAt : option R) (id : string)
    (row : Row) : Row :=
  if decide (row_id row = id) then
    {| row_id := row_id row;
       row_external_id := row_external_id row;
       row_source := row_source row;
       row_name := name;
       row_address := address;
       row_latitude := lat;
       row_longitude := lon;
       row_metadata := metadata;
       row_created_at := row_created_at row;
       row_updated_at := now;
       row_expires_at := expiresAt |}
  else row.

(** The rows that a statement returns and the table it leaves. *)
Definition execute (statement : SqlStatement) (table : list Row)
    : list Row * list Row :=
  match statement with
  | SelectNear lon lat radiusMeters => (near lon lat radiusMeters table, table)
  | SelectByExternalId externalId source =>
    (filter (matches externalId source) table, table)
  | UpdateBuilding name address lon lat metadata expiresAt id =>
    let table' :=
      map (update name address lon lat metadata expiresAt id) table in
    (filter (fun row => row_id row = id) table', table')
  | InsertBuilding externalId source name address lon lat metadata expiresAt =>
    let row :=
      {| row_id := uuid table;
         row_external_id := externalId;
         row_source := source;
         row_name := name;
         row_address := address;
         row_latitude := lat;
         row_longitude := lon;
         row_metadata := metadata;
         row_created_at := now;
         row_updated_at := now;
         row_expires_at := expiresAt |} in
    ([row], table ++ [row])
  end.

(** The world of the database alone: every other call fails. *)
Definition answers (c : Call) (table : list Row)
    : Outcome (Resp c) * list Row :=
  match c return Outcome (Resp c) * list Row with
  | PoolConnect => (Ok tt, table)
  | ClientRelease => (Ok tt, table)
  | ClientQuery statement =>
    (Ok (execute statement table).1, (execute statement table).2)
  | _ => (Throw {| message := "not a database call" |}, table)
  end.

Definition handler : Handler (list Row) :=
  {| answer := answers; clock := fun _ => now |}.

End Engine.

End Postgres.

(** ** A Redis that keeps the identify results *)

Module RedisStore.

Import Types World.

#[global] Instance Fixed_eq_dec : EqDecision Fixed.
Proof. solve_decision. Defined.

#[global] Instance IdentifyKey_eq_dec : EqDecision IdentifyKey.
Proof. solve_decision. Defined.

(** The entries under the prefix ['identify:']. *)
Definition Store : Type := IdentifyKey -> option (list BuildingCandidate).

Definition empty : Store := fun _ => None.

Definition setex (key : IdentifyKey) (value : list BuildingCandidate)
    (store : Store) : Store :=
  fun k => if decide (k = key) then Some value else store k.

(** A Redis that is up and keeps what [SETEX] writes under an identify
    key until it is overwritten (no entry expires during the runs
    looked at), on top of a world [base] that answers every other
    call. *)
Section Layer.

Context {W : Type} (base : Handler W).

Definition answers (c : Call) (s : Store * W)
    : Outcome (Resp c) * (Store * W) :=
  match c return Outcome (Resp c) * (Store * W) with
  | RedisGetIdentify key => (Ok (s.1 key), s)
  | RedisSetexIdentify key _ value => (Ok tt, (setex key value s.1, s.2))
  | c => ((answer base c s.2).1, (s.1, (answer base c s.2).2))
  end.

Definition handler : Handler (Store * W) :=
  {| answer := answers; clock := fun s => clock base s.2 |}.

End Layer.

End RedisStore.

(** ** mobile/src/utils/geo.ts and formatting.ts *)

Module Mobile.

Import Js.
Local Open Scope R_scope.





End Mobile.

(** ** controllers/identify.controller.ts *)

Module Controller.

Import Types Config World Identify.
Local Open Scope async_scope.

Record IdentifyQuery := {
  q_latitude : R;
  q_longitude : R;
  q_heading : option R;
  q_searchRadius : R;
}.

Record ResponseMetadata := {
  m_searchCenter : Coordinates;
  m_timestamp : R;
  m_resultCount : nat;
}.

Record IdentifyResponse := {
  res_candidates : list BuildingCandidate;
  res_query : IdentifyQuery;
  res_metadata : ResponseMetadata;
}.

Record APIError := {
  statusCode : Z;
  api_message : string;
  code : string;
  details : string;
}.

(** What the controller does with the request: [res.status(..).json(..)]
    or [next(error)]. *)
Inductive Reply :=
  | Json (status : Z) (body : IdentifyResponse)
  | Next (error : APIError).

(** The handler wrapped by [asyncHandler], on the validated body of the
    request.  The errors of the services and of the Redis, PostgreSQL
    and HTTP clients are no [APIError], so the handler wraps whatever it
    catches; the timestamp is kept as the time that [toISOString]
    prints. *)
Definition identifyBuildingController (env : Env)
    (validatedBody : IdentifyBuildingInput) : Prog Reply :=
  try_catch
    (let* result :=
       identifyBuilding env
         {| in_latitude := in_latitude validatedBody;
            in_longitude := in_longitude validatedBody;
            in_heading := in_heading validatedBody;
            in_searchRadius := in_searchRadius validatedBody |} in
     let response :=
       {| res_candidates := candidates result;
          res_query :=
            {| q_latitude := in_latitude validatedBody;
               q_longitude := in_longitude validatedBody;
               q_heading := in_heading validatedBody;
               q_searchRadius := searchRadius result |};
          res_metadata :=
            {| m_searchCenter := searchCenter result;
               m_timestamp := timestamp result;
               m_resultCount := length (candidates result) |} |} in
     ret (Json 200 response))
    (fun error =>
       ret (Next {| statusCode := 500;
                    api_message := "Failed to identify building";
                    code := "IDENTIFICATION_ERROR";
                    details := message error |})).

End Controller.

(** * Properties *)

Section ScoringFacts.

Import Js Types Scoring.
Local Open Scope R_scope.

Lemma Math_round_mono (x y : R) : x <= y -> Math_round x <= Math_round y.
Proof.
  intros Hxy. unfold Math_round. apply IZR_le, Zfloor_le. lra.
Qed.

Lemma Math_round_IZR (z : Z) : Math_round (IZR z) = IZR z.
Proof.
  unfold Math_round. f_equal. apply Zfloor_eq. lra.
Qed.

Lemma Math_round_100_bounds (x lo hi : Z) (p : R) :
  IZR lo <= p <= IZR hi -> IZR lo <= Math_round p <= IZR hi.
Proof.
  intros [Hlo Hhi].
  rewrite <- (Math_round_IZR lo), <- (Math_round_IZR hi).
  split; apply Math_round_mono; assumption.
Qed.


Lemma calculateDistanceScore_range (d : R) : 0 <= calculateDistanceScore d <= 1.
Proof.
  unfold calculateDistanceScore, Math_max, Math_min.
  destruct (decide _); [lra |].
  split; [apply Rmax_l |].
  apply Rmax_lub; [lra | apply Rmin_l].
Qed.

Lemma calculateBearingScore_eq (b : option R) :
  calculateBearingScore b = ScoringSpec.B b.
Proof.
  unfold calculateBearingScore, ScoringSpec.B,
    BEARING_PARAMS.perfectAlignment, BEARING_PARAMS.maxPenalty,
    Math_max, Math_min.
  destruct b as [b |]; [| reflexivity].
  destruct (decide (b <= 15)); [lra |].
  destruct (decide (b >= 90)); [lra |].
  rewrite Rmin_right by lra. rewrite Rmax_right by lra. reflexivity.
Qed.

Lemma calculateBearingScore_range (b : option R) : 0 <= calculateBearingScore b <= 1.
Proof.
  rewrite calculateBearingScore_eq. unfold ScoringSpec.B.
  destruct b as [b |]; [| lra].
  destruct (decide (b <= 15)); [lra |].
  destruct (decide (b >= 90)); lra.
Qed.


Lemma calculateSourceScore_range (s : Source) : 0 <= calculateSourceScore s <= 1.
Proof. destruct s; unfold calculateSourceScore; simpl; lra. Qed.


Lemma calculateMetadataScore_range (n : bool) (r : option bool) :
  0 <= calculateMetadataScore n r <= 1.
Proof.
  unfold calculateMetadataScore, Math_min.
  destruct n, (default false r);
    (split; [apply Rmin_glb; lra | apply Rmin_l]).
Qed.

End ScoringFacts.

Section ScoringMonotone.

Import Js Types Scoring.
Local Open Scope R_scope.

Lemma exp_mono (x y : R) : x <= y -> exp x <= exp y.
Proof.
  intros [Hlt | ->]; [| lra].
  left. apply exp_increasing, Hlt.
Qed.

Lemma calculateDistanceScore_antitone (d1 d2 : R) :
  d1 <= d2 -> calculateDistanceScore d2 <= calculateDistanceScore d1.
Proof.
  intros Hd.
  pose proof (calculateDistanceScore_range d2) as Hr2.
  unfold calculateDistanceScore, DISTANCE_PARAMS.optimalDistance,
    DISTANCE_PARAMS.decayRate, Math_max, Math_min, Math_exp in *.
  destruct (decide (d1 <= 10)) as [H1 | H1].
  - destruct (decide (d2 <= 10)); lra.
  - destruct (decide (d2 <= 10)) as [H2 | H2]; [lra |].
    apply Rle_max_compat_l, Rle_min_compat_l, exp_mono. lra.
Qed.

Lemma calculateBearingScore_antitone (b1 b2 : R) :
  b1 <= b2 -> calculateBearingScore (Some b2) <= calculateBearingScore (Some b1).
Proof.
  intros Hb. rewrite !calculateBearingScore_eq. unfold ScoringSpec.B.
  repeat destruct (decide _); lra.
Qed.

(** The score is a non-decreasing function of its four components. *)
Lemma weighted_round_mono (d1 b1 d2 b2 s m : R) :
  d1 <= d2 -> b1 <= b2 ->
  Math_round ((d1 * SCORING_WEIGHTS.distance + b1 * SCORING_WEIGHTS.bearing +
               s * SCORING_WEIGHTS.source + m * SCORING_WEIGHTS.metadata)
              * 100 * 100) / 100 <=
  Math_round ((d2 * SCORING_WEIGHTS.distance + b2 * SCORING_WEIGHTS.bearing +
               s * SCORING_WEIGHTS.source + m * SCORING_WEIGHTS.metadata)
              * 100 * 100) / 100.
Proof.
  intros Hd Hb.
  apply Rmult_le_compat_r; [lra |].
  apply Math_round_mono.
  unfold SCORING_WEIGHTS.distance, SCORING_WEIGHTS.bearing,
    SCORING_WEIGHTS.source, SCORING_WEIGHTS.metadata.
  lra.
Qed.

End ScoringMonotone.

Section BearingFacts.

Import Js Types Bearing.
Local Open Scope R_scope.

Lemma rem_360_small (x : R) : 0 <= x < 360 -> rem x 360 = x.
Proof.
  intros [H0 H360]. unfold rem, Ztrunc.
  assert (Hq : 0 <= x / 360 < 1) by (split; lra).
  destruct (decide (0 <= x / 360)) as [_ | Hn]; [| lra].
  rewrite (Zfloor_eq 0) by (simpl; lra). simpl. lra.
Qed.

Lemma normalizeBearing_small (x : R) : 0 <= x < 360 -> normalizeBearing x = x.
Proof.
  intros Hx. unfold normalizeBearing. rewrite rem_360_small by assumption.
  destruct (decide (x < 0)); lra.
Qed.

Lemma calculateBearingDifference_small (x y : R) :
  0 <= x < 360 -> 0 <= y < 360 ->
  calculateBearingDifference x y =
    if decide (Rabs (x - y) > 180) then 360 - Rabs (x - y) else Rabs (x - y).
Proof.
  intros Hx Hy. unfold calculateBearingDifference, Math_abs.
  rewrite !normalizeBearing_small by assumption. reflexivity.
Qed.

End BearingFacts.

(** * The claims on the geometric and scoring primitives *)

Section PrimitiveClaims.

Import Js Types Bearing Scoring.
Local Open Scope R_scope.



(** C8. With the other factors fixed, [calculateConfidenceScore] does
    not increase when the distance grows (from 0 upwards), and does not
    increase when a present bearing difference grows within [0,180]. *)
Theorem calculateConfidenceScore_monotone
    (source : Source) (hasName : bool) (hasRating : option bool) :
  (forall (bearingDiff : option R) (d1 d2 : R),
      0 <= d1 -> d1 <= d2 ->
      calculateConfidenceScore
        {| sf_distance := d2; sf_bearingDiff := bearingDiff;
           sf_source := source; sf_hasName := hasName;
           sf_hasRating := hasRating |} <=
      calculateConfidenceScore
        {| sf_distance := d1; sf_bearingDiff := bearingDiff;
           sf_source := source; sf_hasName := hasName;
           sf_hasRating := hasRating |})
  /\
  (forall (distance b1 b2 : R),
      0 <= b1 -> b1 <= b2 -> b2 <= 180 ->
      calculateConfidenceScore
        {| sf_distance := distance; sf_bearingDiff := Some b2;
           sf_source := source; sf_hasName := hasName;
           sf_hasRating := hasRating |} <=
      calculateConfidenceScore
        {| sf_distance := distance; sf_bearingDiff := Some b1;
           sf_source := source; sf_hasName := hasName;
           sf_hasRating := hasRating |}).
Proof.
  split.
  - intros bearingDiff d1 d2 _ Hd. unfold calculateConfidenceScore. simpl.
    apply weighted_round_mono; [| lra].
    apply calculateDistanceScore_antitone, Hd.
  - intros distance b1 b2 _ Hb _. unfold calculateConfidenceScore. simpl.
    apply weighted_round_mono; [lra |].
    apply calculateBearingScore_antitone, Hb.
Qed.

Lemma calculateConfidenceScore_monotone_witness :
  calculateConfidenceScore
    {| sf_distance := 400; sf_bearingDiff := Some 90;
       sf_source := google_places; sf_hasName := true;
       sf_hasRating := None |} <=
  calculateConfidenceScore
    {| sf_distance := 50; sf_bearingDiff := Some 90;
       sf_source := google_places; sf_hasName := true;
       sf_hasRating := None |}
  /\
  calculateConfidenceScore
    {| sf_distance := 50; sf_bearingDiff := Some 90;
       sf_source := google_places; sf_hasName := true;
       sf_hasRating := None |} <=
  calculateConfidenceScore
    {| sf_distance := 50; sf_bearingDiff := Some 20;
       sf_source := google_places; sf_hasName := true;
       sf_hasRating := None |}.
Proof.
  split.
  - apply (proj1 (calculateConfidenceScore_monotone google_places true None));
      lra.
  - apply (proj2 (calculateConfidenceScore_monotone google_places true None));
      lra.
Defined.

(** C9. For bearings x and y in [0,360) the angular difference
    [calculateBearingDifference x y] lies in [0,180] and is symmetric in
    x and y; across the 0/360 boundary the shorter way round is taken:
    the difference of 350 and 10 is 20, that of 1 and 359 is 2. *)
Theorem calculateBearingDifference_range_symmetric :
  (forall x y : R,
      0 <= x < 360 -> 0 <= y < 360 ->
      0 <= calculateBearingDifference x y <= 180 /\
      calculateBearingDifference x y = calculateBearingDifference y x)
  /\ calculateBearingDifference 350 10 = 20
  /\ calculateBearingDifference 1 359 = 2.
Proof.
  split; [| split].
  - intros x y Hx Hy.
    rewrite (calculateBearingDifference_small x y),
      (calculateBearingDifference_small y x) by assumption.
    rewrite (Rabs_minus_sym y x).
    assert (Habs : 0 <= Rabs (x - y) < 360).
    { split; [apply Rabs_pos |]. apply Rabs_def1; lra. }
    destruct (decide (Rabs (x - y) > 180)); split; lra.
  - rewrite calculateBearingDifference_small by lra.
    replace (350 - 10) with 340 by lra.
    rewrite Rabs_pos_eq by lra.
    destruct (decide (340 > 180)); lra.
  - rewrite calculateBearingDifference_small by lra.
    rewrite Rabs_minus_sym. replace (359 - 1) with 358 by lra.
    rewrite Rabs_pos_eq by lra.
    destruct (decide (358 > 180)); lra.
Qed.

Lemma calculateBearingDifference_range_symmetric_witness :
  0 <= calculateBearingDifference 270 45 <= 180 /\
  calculateBearingDifference 270 45 = calculateBearingDifference 45 270.
Proof.
  apply (proj1 calculateBearingDifference_range_symmetric 270 45); lra.
Defined.

(** C10. Without a bearing difference (no user heading) the bearing
    component is the neutral 0.5 and [calculateConfidenceScore] is at
    most 85; a google_places candidate within 10 meters that has a name
    and a rating scores exactly 85. *)
Theorem calculateConfidenceScore_no_heading_max
    (distance : R) (source : Source) (hasName : bool)
    (hasRating : option bool) :
  calculateConfidenceScore
    {| sf_distance := distance; sf_bearingDiff := None;
       sf_source := source; sf_hasName := hasName;
       sf_hasRating := hasRating |} <= 85
  /\ (distance <= 10 ->
      calculateConfidenceScore
        {| sf_distance := distance; sf_bearingDiff := None;
           sf_source := google_places; sf_hasName := true;
           sf_hasRating := Some true |} = 85).
Proof.
  unfold calculateConfidenceScore. simpl.
  pose proof (calculateDistanceScore_range distance) as HD.
  pose proof (calculateSourceScore_range source) as HS.
  pose proof (calculateMetadataScore_range hasName hasRating) as HM.
  unfold SCORING_WEIGHTS.distance, SCORING_WEIGHTS.bearing,
    SCORING_WEIGHTS.source, SCORING_WEIGHTS.metadata.
  split.
  - match goal with |- Math_round ?p / _ <= _ =>
      destruct (Math_round_100_bounds 0 0 8500 p) as [Hlo Hhi];
        [split; lra | lra]
    end.
  - intros Hd. unfold calculateDistanceScore, calculateSourceScore,
      calculateMetadataScore, DISTANCE_PARAMS.optimalDistance, Math_min.
    simpl. destruct (decide (distance <= 10)); [| lra].
    rewrite Rmin_left by lra.
    match goal with |- Math_round ?p / _ = _ =>
      replace p with (IZR 8500) by lra
    end.
    rewrite Math_round_IZR. lra.
Qed.

Lemma calculateConfidenceScore_no_heading_max_witness :
  calculateConfidenceScore
    {| sf_distance := 5; sf_bearingDiff := None;
       sf_source := google_places; sf_hasName := true;
       sf_hasRating := Some true |} = 85.
Proof.
  apply (proj2 (calculateConfidenceScore_no_heading_max 5 cache false None)).
  lra.
Defined.

End PrimitiveClaims.

(** * Runs of asynchronous code *)

Import Observe.

Section RunFacts.

Import World.

Context {W : Type} (h : Handler W).

Lemma run_bind {A B} (m : Prog A) (f : A -> Prog B) (w : W) :
  run h (bind m f) w =
    match outcome (run h m w) with
    | Ok a =>
      {| outcome := outcome (run h (f a) (world (run h m w)));
         world := world (run h (f a) (world (run h m w)));
         trace := trace (run h m w) ++ trace (run h (f a) (world (run h m w))) |}
    | Throw e =>
      {| outcome := Throw e; world := world (run h m w);
         trace := trace (run h m w) |}
    end.
Proof.
  revert w. induction m as [a | e | c k IH | k IH]; intros w; simpl.
  - destruct (run h (f a) w); reflexivity.
  - reflexivity.
  - rewrite IH. destruct (outcome (run h (k _) _)); reflexivity.
  - apply IH.
Qed.

Lemma run_try_catch {A} (m : Prog A) (handle : Error -> Prog A) (w : W) :
  run h (try_catch m handle) w =
    match outcome (run h m w) with
    | Ok a => run h m w
    | Throw e =>
      {| outcome := outcome (run h (handle e) (world (run h m w)));
         world := world (run h (handle e) (world (run h m w)));
         trace := trace (run h m w) ++
                  trace (run h (handle e) (world (run h m w))) |}
    end.
Proof.
  revert w. induction m as [a | e | c k IH | k IH]; intros w; simpl.
  - reflexivity.
  - destruct (run h (handle e) w); reflexivity.
  - rewrite IH.
    destruct (outcome (run h (k _) _)) eqn:E; simpl; rewrite ?E; reflexivity.
  - apply IH.
Qed.

(** A handler that throws the error on is no handler at all. *)
Lemma run_rethrow {A} (m : Prog A) (w : W) :
  run h (try_catch m (fun error => throw error)) w = run h m w.
Proof.
  revert w. induction m as [a | e | c k IH | k IH]; intros w; simpl.
  - reflexivity.
  - reflexivity.
  - rewrite IH. reflexivity.
  - apply IH.
Qed.

Lemma run_try_finally {A} (m : Prog A) (cleanup : Prog unit) (w : W) :
  run h (try_finally m cleanup) w =
    {| outcome :=
         match outcome (run h cleanup (world (run h m w))) with
         | Ok _ => outcome (run h m w)
         | Throw e => Throw e
         end;
       world := world (run h cleanup (world (run h m w)));
       trace := trace (run h m w) ++
                trace (run h cleanup (world (run h m w))) |}.
Proof.
  revert w. induction m as [a | e | c k IH | k IH]; intros w; simpl.
  - rewrite run_bind. destruct (outcome (run h cleanup w)); simpl;
      rewrite ?app_nil_r; reflexivity.
  - rewrite run_bind. destruct (outcome (run h cleanup w)); simpl;
      rewrite ?app_nil_r; reflexivity.
  - rewrite IH. reflexivity.
  - apply IH.
Qed.

Lemma run_perform (c : Call) (w : W) :
  run h (perform c) w =
    {| outcome := (answer h c w).1; world := (answer h c w).2; trace := [c] |}.
Proof.
  unfold perform. simpl. destruct ((answer h c w).1); reflexivity.
Qed.

Lemma run_settle {A} (m : Prog A) (w : W) :
  run h (settle m) w =
    {| outcome := Ok (outcome (run h m w)); world := world (run h m w);
       trace := trace (run h m w) |}.
Proof.
  unfold settle. rewrite run_try_catch, run_bind.
  destruct (outcome (run h m w)); simpl; rewrite app_nil_r; reflexivity.
Qed.

Lemma run_lift {A} (o : Outcome A) (w : W) :
  run h (lift o) w = {| outcome := o; world := w; trace := [] |}.
Proof. destruct o; reflexivity. Qed.

End RunFacts.

Section ReturnsFacts.

Import World.

Lemma returns_ret {A} (a : A) : returns (ret a).
Proof. intros W h w. exists a. reflexivity. Qed.

Lemma returns_bind {A B} (m : Prog A) (f : A -> Prog B) :
  returns m -> (forall a, returns (f a)) -> returns (bind m f).
Proof.
  intros Hm Hf W h w. rewrite run_bind.
  destruct (Hm W h w) as [a ->]. simpl. apply Hf.
Qed.

Lemma returns_try_catch {A} (m : Prog A) (handle : Error -> Prog A) :
  (forall e, returns (handle e)) -> returns (try_catch m handle).
Proof.
  intros Hh W h w. rewrite run_try_catch.
  destruct (outcome (run h m w)) as [a | e] eqn:Hm.
  - exists a. exact Hm.
  - simpl. apply Hh.
Qed.

Lemma returns_rethrow {A} (m : Prog A) :
  returns m -> returns (try_catch m (fun error => throw error)).
Proof. intros Hm W h w. rewrite run_rethrow. apply Hm. Qed.

Lemma returns_Date_now : returns Date_now.
Proof. intros W h w. eexists. reflexivity. Qed.

Lemma returns_Promise_allSettled {A} (ms : list (Prog A)) :
  returns (Promise_allSettled ms).
Proof.
  induction ms as [| m ms IH]; intros W h w; simpl.
  - eexists. reflexivity.
  - rewrite run_bind, run_settle. simpl. rewrite run_bind.
    destruct (IH W h (world (run h m w))) as [os ->]. simpl.
    eexists. reflexivity.
Qed.

End ReturnsFacts.

Section CallsOnlyFacts.

Import World.

Context (Q : Call -> Prop).

Lemma calls_only_bind {A B} (m : Prog A) (f : A -> Prog B) :
  calls_only Q m -> (forall a, calls_only Q (f a)) -> calls_only Q (bind m f).
Proof.
  intros Hm Hf. induction m as [a | e | c k IH | k IH]; simpl in *.
  - apply Hf.
  - exact I.
  - destruct Hm as [Hc Hk]. split; [exact Hc |]. intros o. apply IH, Hk.
  - intros t. apply IH, Hm.
Qed.

Lemma calls_only_try_catch {A} (m : Prog A) (handle : Error -> Prog A) :
  calls_only Q m -> (forall e, calls_only Q (handle e)) ->
  calls_only Q (try_catch m handle).
Proof.
  intros Hm Hh. induction m as [a | e | c k IH | k IH]; simpl in *.
  - exact I.
  - apply Hh.
  - destruct Hm as [Hc Hk]. split; [exact Hc |]. intros o. apply IH, Hk.
  - intros t. apply IH, Hm.
Qed.

Lemma calls_only_try_finally {A} (m : Prog A) (cleanup : Prog unit) :
  calls_only Q m -> calls_only Q cleanup -> calls_only Q (try_finally m cleanup).
Proof.
  intros Hm Hc. induction m as [a | e | c k IH | k IH]; simpl in *.
  - apply calls_only_bind; [exact Hc | intros; exact I].
  - apply calls_only_bind; [exact Hc | intros; exact I].
  - destruct Hm as [Hq Hk]. split; [exact Hq |]. intros o. apply IH, Hk.
  - intros t. apply IH, Hm.
Qed.

Lemma calls_only_perform (c : Call) : Q c -> calls_only Q (perform c).
Proof. intros Hc. split; [exact Hc |]. intros [a | e]; exact I. Qed.

Lemma calls_only_lift {A} (o : Outcome A) : calls_only Q (lift o).
Proof. destruct o; exact I. Qed.

Lemma calls_only_trace {W A} (h : Handler W) (m : Prog A) (w : W) :
  calls_only Q m -> Forall Q (trace (run h m w)).
Proof.
  revert w. induction m as [a | e | c k IH | k IH]; intros w Hm; simpl in *.
  - constructor.
  - constructor.
  - destruct Hm as [Hc Hk]. constructor; [exact Hc |]. apply IH, Hk.
  - apply IH, Hm.
Qed.


End CallsOnlyFacts.

Section CallsBeforeReturnFacts.

Import World.

Context (Q : Call -> Prop).







End CallsBeforeReturnFacts.

(** * The services *)

Ltac calls_only_step :=
  lazymatch goal with
  | |- calls_only _ (World.try_catch _ _) => apply calls_only_try_catch
  | |- calls_only _ (World.try_finally _ _) => apply calls_only_try_finally
  | |- calls_only _ (World.bind _ _) => apply calls_only_bind
  | |- calls_only _ (World.perform _) => apply calls_only_perform
  | |- calls_only _ (World.lift _) => apply calls_only_lift
  | |- calls_only _ (World.ret _) => exact I
  | |- calls_only _ (World.throw _) => exact I
  | |- calls_only _ World.Date_now => exact (fun _ => I)
  | |- calls_only _ (match ?x with _ => _ end) => destruct x
  | |- forall _, _ => intro
  end.

Ltac calls_only_tac := cbv zeta; repeat calls_only_step.

Section ServiceFacts.

Import Js Types Config World Database Cache Places Geocoding Identify.

Context (env : Env).

Lemma returns_getCachedBuildings (coordinates : Coordinates) (radius : R) :
  returns (getCachedBuildings coordinates radius).
Proof. apply returns_try_catch. intros e. apply returns_ret. Qed.

Lemma returns_getCachedIdentifyResults
    (coordinates : Coordinates) (heading : option R) (radius : R) :
  returns (getCachedIdentifyResults coordinates heading radius).
Proof. apply returns_try_catch. intros e. apply returns_ret. Qed.

Lemma returns_cacheIdentifyResults (coordinates : Coordinates)
    (heading : option R) (radius : R) (candidates : list BuildingCandidate) :
  returns (cacheIdentifyResults env coordinates heading radius candidates).
Proof. apply returns_try_catch. intros e. apply returns_ret. Qed.

Lemma returns_findNearbyPlaces (coordinates : Coordinates) (radius : R) :
  returns (findNearbyPlaces env coordinates radius).
Proof. apply returns_try_catch. intros e. apply returns_ret. Qed.

Lemma returns_reverseGeocode (coordinates : Coordinates) :
  returns (reverseGeocode env coordinates).
Proof. apply returns_try_catch. intros e. apply returns_ret. Qed.

Lemma returns_persistResults (coordinates : Coordinates)
    (heading : option R) (radius : R) (candidates : list BuildingCandidate) :
  returns (persistResults env coordinates heading radius candidates).
Proof.
  apply returns_bind; [apply returns_Promise_allSettled |].
  intros _. apply returns_cacheIdentifyResults.
Qed.

Lemma run_getCachedIdentifyResults {W} (h : Handler W)
    (coordinates : Coordinates) (heading : option R) (radius : R) (w : W) :
  let key :=
    getIdentifyCacheKey (latitude coordinates) (longitude coordinates)
      heading radius in
  run h (getCachedIdentifyResults coordinates heading radius) w =
    {| outcome :=
         Ok match (answer h (RedisGetIdentify key) w).1 with
            | Ok (Some stored) => Some stored
            | _ => None
            end;
       world := (answer h (RedisGetIdentify key) w).2;
       trace := [RedisGetIdentify key] |}.
Proof.
  intros key. subst key. unfold getCachedIdentifyResults.
  rewrite run_try_catch, run_bind, run_perform. simpl.
  match goal with
  | |- context [answer h ?c w] =>
    destruct (answer h c w) as [[[stored |] | e] w']; reflexivity
  end.
Qed.

Lemma calls_only_getCachedBuildings (coordinates : Coordinates) (radius : R)
    (Q : Call -> Prop) :
  Q PoolConnect -> Q ClientRelease ->
  (forall lon lat r, Q (ClientQuery (SelectNear lon lat r))) ->
  calls_only Q (getCachedBuildings coordinates radius).
Proof.
  intros Hconnect Hrelease Hselect.
  unfold getCachedBuildings, findBuildingsNearLocation.
  calls_only_tac; auto.
Qed.

Lemma calls_only_findNearbyPlaces (coordinates : Coordinates) (radius : R)
    (Q : Call -> Prop) :
  (forall k, Q (RedisGetPlaces k)) ->
  (forall k ttl v, Q (RedisSetexPlaces k ttl v)) ->
  (forall c r, Q (HttpPlacesNearby c r)) ->
  calls_only Q (findNearbyPlaces env coordinates radius).
Proof.
  intros Hget Hset Hhttp. unfold findNearbyPlaces.
  calls_only_tac; auto.
Qed.




Lemma trace_reverseGeocode_head {W} (h : Handler W)
    (coordinates : Coordinates) (w : W) :
  exists rest,
    trace (run h (reverseGeocode env coordinates) w) =
      RedisGetGeocode (Geocoding.getCacheKey (latitude coordinates)
                         (longitude coordinates)) :: rest.
Proof.
  unfold reverseGeocode. rewrite run_try_catch, run_bind, run_perform. simpl.
  match goal with
  | |- context [answer h ?c w] =>
    destruct (answer h c w) as [[cached | e] w']; simpl
  end.
  - match goal with
    | |- context [outcome ?r] => destruct (outcome r); simpl; eauto
    end.
  - eauto.
Qed.

End ServiceFacts.

(** * Sorting by a key, highest first *)

Section SortFacts.

Import World.
Local Open Scope R_scope.

Context {A : Type} (key : A -> R).

Let compare (a b : A) : R := key b - key a.

Lemma sort_insert_perm (x : A) (l : list A) :
  sort_insert compare x l ≡ₚ x :: l.
Proof.
  induction l as [| y l IH]; simpl; [reflexivity |].
  destruct (decide (compare x y <= 0)); [reflexivity |].
  rewrite IH. apply Permutation_swap.
Qed.

Lemma Array_sort_perm (l : list A) : Array_sort compare l ≡ₚ l.
Proof.
  induction l as [| x l IH]; simpl; [reflexivity |].
  rewrite sort_insert_perm, IH. reflexivity.
Qed.






End SortFacts.

(** * Runs of the orchestrator *)

Section IdentifyFacts.

Import Js Types Config World Cache Places Geocoding Identify.

Context {W : Type} (h : Handler W) (env : Env).
Context (places : Coordinates -> R -> Prog (list PlaceResult)).

Lemma run_gatherCandidates (coordinates : Coordinates) (radius : R) (w : W)
    (cached : list BuildingCandidate) :
  let r1 := run h (getCachedBuildings coordinates radius) w in
  let r2 := run h (places coordinates radius) (world r1) in
  outcome r1 = Ok cached ->
  run h (gatherCandidates env places coordinates radius) w =
    match outcome r2 with
    | Throw e =>
      {| outcome := Throw e; world := world r2;
         trace := trace r1 ++ trace r2 |}
    | Ok nearby =>
      let found := cached ++ map placeCandidate nearby in
      if decide (length found < 3)%nat then
        let r3 := run h (reverseGeocode env coordinates) (world r2) in
        {| outcome :=
             Ok (found ++
                 match outcome r3 with
                 | Ok (Some geocoded) => [geocodeCandidate geocoded]
                 | _ => []
                 end);
           world := world r3;
           trace := trace r1 ++ trace r2 ++ trace r3 |}
      else
        {| outcome := Ok found; world := world r2;
           trace := trace r1 ++ trace r2 |}
    end.
Proof.
  intros r1 r2 Hr1. unfold gatherCandidates.
  rewrite run_bind. fold r1. rewrite Hr1. cbn [outcome world trace].
  rewrite run_bind. fold r2.
  destruct (outcome r2) as [nearby | e]; cbn [outcome world trace app];
    [| reflexivity].
  destruct (decide (length (cached ++ map placeCandidate nearby) < 3)%nat);
    cbn [outcome world trace].
  - rewrite run_bind.
    destruct (returns_reverseGeocode env coordinates W h (world r2))
      as [geocoded Hr3].
    rewrite Hr3. destruct geocoded as [geocoded |]; cbn [outcome world trace];
      rewrite ?app_nil_r; reflexivity.
  - cbn [outcome world trace]. rewrite !app_nil_r. reflexivity.
Qed.

Context (input : IdentifyBuildingInput) (w : W).

Let coordinates := userCoordinatesOf input.
Let radius := searchRadiusOf env input.
Let r0 :=
  run h (getCachedIdentifyResults coordinates (in_heading input) radius) w.

Lemma run_identify_hit (stored : list BuildingCandidate) :
  outcome r0 = Ok (Some stored) ->
  run h (identifyBuildingWith env places input) w =
    {| outcome :=
         Ok {| candidates := stored;
               searchRadius := radius;
               searchCenter := coordinates;
               heading := in_heading input;
               timestamp := clock h (world r0) |};
       world := world r0;
       trace := trace r0 |}.
Proof.
  intros Hr0. unfold identifyBuildingWith.
  rewrite run_rethrow, run_bind. fold coordinates radius r0. rewrite Hr0.
  cbn [outcome world trace]. rewrite app_nil_r. reflexivity.
Qed.

Lemma run_identify_miss :
  outcome r0 = Ok None ->
  let g := run h (gatherCandidates env places coordinates radius) (world r0) in
  run h (identifyBuildingWith env places input) w =
    match outcome g with
    | Ok gathered =>
      let ranked := rankCandidates coordinates (in_heading input) gathered in
      let p :=
        run h (persistResults env coordinates (in_heading input) radius ranked)
          (world g) in
      {| outcome :=
           Ok {| candidates := ranked;
                 searchRadius := radius;
                 searchCenter := coordinates;
                 heading := in_heading input;
                 timestamp := clock h (world p) |};
         world := world p;
         trace := trace r0 ++ trace g ++ trace p |}
    | Throw e =>
      {| outcome := Throw e; world := world g; trace := trace r0 ++ trace g |}
    end.
Proof.
  intros Hr0 g. unfold identifyBuildingWith.
  rewrite run_rethrow, run_bind. fold coordinates radius r0. rewrite Hr0.
  cbn [outcome world trace]. rewrite run_bind. fold g.
  destruct (outcome g) as [gathered | e]; cbn [outcome world trace]; [| reflexivity].
  rewrite run_bind.
  destruct (returns_persistResults env coordinates (in_heading input) radius
              (rankCandidates coordinates (in_heading input) gathered)
              W h (world g)) as [[] Hp].
  rewrite Hp. cbn [outcome world trace]. rewrite app_nil_r. reflexivity.
Qed.

End IdentifyFacts.

(** * The claims on the orchestrator *)

Section OrchestratorClaims.

Import Js Types Config World Cache Places Geocoding Identify.

(** C2. When the result cache holds a candidate list under the key of
    the query (rounded coordinates, rounded heading, radius),
    [identifyBuilding] returns exactly that list; the one call of the
    run is the read of that key, so no adapter and no building cache is
    queried and nothing is written. *)
Theorem identifyBuilding_cache_hit {W : Type} (h : Handler W) (env : Env)
    (input : IdentifyBuildingInput) (w : W)
    (stored : list BuildingCandidate) :
  let key :=
    getIdentifyCacheKey (in_latitude input) (in_longitude input)
      (in_heading input) (searchRadiusOf env input) in
  (answer h (RedisGetIdentify key) w).1 = Ok (Some stored) ->
  let r := run h (identifyBuilding env input) w in
  (exists res, outcome r = Ok res /\ candidates res = stored) /\
  trace r = [RedisGetIdentify key] /\
  world r = (answer h (RedisGetIdentify key) w).2.
Proof.
  intros key Hstored r. subst r. unfold identifyBuilding.
  erewrite run_identify_hit.
  - rewrite run_getCachedIdentifyResults. cbn [outcome world trace].
    split; [eexists; split; reflexivity |]. split; reflexivity.
  - rewrite run_getCachedIdentifyResults. cbn [outcome].
    unfold userCoordinatesOf. cbn [latitude longitude].
    fold key. rewrite Hstored. reflexivity.
Qed.

Lemma identifyBuilding_cache_hit_witness :
  let r :=
    run (Scenario.handler (Some [Scenario.cafe]) [] true)
      (identifyBuilding Scenario.env Scenario.input) tt in
  (exists res, outcome r = Ok res /\ candidates res = [Scenario.cafe]) /\
  trace r =
    [RedisGetIdentify
       (getIdentifyCacheKey (in_latitude Scenario.input)
          (in_longitude Scenario.input) (in_heading Scenario.input)
          (searchRadiusOf Scenario.env Scenario.input))] /\
  world r = tt.
Proof.
  apply (identifyBuilding_cache_hit
           (Scenario.handler (Some [Scenario.cafe]) [] true)
           Scenario.env Scenario.input tt [Scenario.cafe]).
  reflexivity.
Defined.

Lemma length_rankCandidates (coordinates : Coordinates) (heading : option R)
    (gathered : list BuildingCandidate) :
  length (rankCandidates coordinates heading gathered) = length gathered.
Proof.
  unfold rankCandidates, sortCandidates.
  rewrite (Array_sort_perm c_confidence), !length_map. reflexivity.
Qed.

Lemma returns_gatherCandidates (env : Env)
    (places : Coordinates -> R -> Prog (list PlaceResult))
    (coordinates : Coordinates) (radius : R) :
  returns (places coordinates radius) ->
  returns (gatherCandidates env places coordinates radius).
Proof.
  intros Hplaces. unfold gatherCandidates.
  apply returns_bind; [apply returns_getCachedBuildings |]. intros cached.
  apply returns_bind; [exact Hplaces |]. intros nearby.
  case_decide; [| apply returns_ret].
  apply returns_bind; [apply returns_reverseGeocode |].
  intros [geocoded |]; apply returns_ret.
Qed.

Lemma returns_identifyBuilding (env : Env) (input : IdentifyBuildingInput) :
  returns (identifyBuilding env input).
Proof.
  unfold identifyBuilding, identifyBuildingWith.
  apply returns_rethrow, returns_bind;
    [apply returns_getCachedIdentifyResults |].
  intros [stored |].
  - apply returns_bind; [apply returns_Date_now | intros; apply returns_ret].
  - apply returns_bind;
      [apply returns_gatherCandidates, returns_findNearbyPlaces |].
    intros gathered.
    apply returns_bind; [apply returns_persistResults |]. intros _.
    apply returns_bind; [apply returns_Date_now | intros; apply returns_ret].
Qed.

(** C1, as the code has it.  [identifyBuilding] throws exactly when the
    result cache misses and the call of the places adapter throws, and
    it throws that error; the places adapter of places.service.ts does
    not throw, so [identifyBuilding] returns in every run.  Failures of
    the building-cache read, of the geocoding fallback, of the result
    cache and of the building-cache writes do not surface: whenever the
    places call returns, the gathering returns and the response holds
    the ranked candidates gathered.  When the result cache misses, the
    building cache yields no candidate, the places adapter returns an
    empty list and the geocoding adapter yields nothing, the candidate
    list is empty. *)
Theorem identifyBuilding_error_propagation {W : Type} (h : Handler W)
    (env : Env) (places : Coordinates -> R -> Prog (list PlaceResult))
    (input : IdentifyBuildingInput) (w : W) :
  let coordinates := userCoordinatesOf input in
  let radius := searchRadiusOf env input in
  let r0 :=
    run h (getCachedIdentifyResults coordinates (in_heading input) radius) w in
  let r1 := run h (getCachedBuildings coordinates radius) (world r0) in
  let r2 := run h (places coordinates radius) (world r1) in
  let r3 := run h (reverseGeocode env coordinates) (world r2) in
  let g := run h (gatherCandidates env places coordinates radius) (world r0) in
  let r := run h (identifyBuildingWith env places input) w in
  (forall e,
      outcome r = Throw e <-> outcome r0 = Ok None /\ outcome r2 = Throw e)
  /\ (forall nearby,
        outcome r0 = Ok None -> outcome r2 = Ok nearby ->
        exists gathered res,
          outcome g = Ok gathered /\ outcome r = Ok res /\
          candidates res =
            rankCandidates coordinates (in_heading input) gathered)
  /\ (outcome r0 = Ok None -> outcome r1 = Ok [] -> outcome r2 = Ok [] ->
      outcome r3 = Ok None ->
      exists res, outcome r = Ok res /\ candidates res = [])
  /\ (exists res, outcome (run h (identifyBuilding env input) w) = Ok res).
Proof.
  intros coordinates radius r0 r1 r2 r3 g r.
  assert (Hgather : forall cached, outcome r1 = Ok cached ->
    g = match outcome r2 with
        | Throw e =>
          {| outcome := Throw e; world := world r2;
             trace := trace r1 ++ trace r2 |}
        | Ok nearby =>
          let found := cached ++ map placeCandidate nearby in
          if decide (length found < 3)%nat then
            {| outcome :=
                 Ok (found ++
                     match outcome r3 with
                     | Ok (Some geocoded) => [geocodeCandidate geocoded]
                     | _ => []
                     end);
               world := world r3;
               trace := trace r1 ++ trace r2 ++ trace r3 |}
          else
            {| outcome := Ok found; world := world r2;
               trace := trace r1 ++ trace r2 |}
        end).
  { intros cached Hr1. apply (run_gatherCandidates h env places); exact Hr1. }
  destruct (returns_getCachedBuildings coordinates radius W h (world r0))
    as [cached Hr1]. fold r1 in Hr1.
  specialize (Hgather cached Hr1).
  destruct (returns_getCachedIdentifyResults coordinates (in_heading input)
              radius W h w) as [[stored |] Hr0]; fold r0 in Hr0.
  - assert (Hr : outcome r = Ok {| candidates := stored;
                                   searchRadius := radius;
                                   searchCenter := coordinates;
                                   heading := in_heading input;
                                   timestamp := clock h (world r0) |}).
    { subst r. erewrite run_identify_hit by exact Hr0. reflexivity. }
    split; [| split; [| split]].
    + intros e. rewrite Hr, Hr0. split; [discriminate |].
      intros [Hnone _]. discriminate.
    + intros nearby Hnone. rewrite Hr0 in Hnone. discriminate.
    + intros Hnone. rewrite Hr0 in Hnone. discriminate.
    + apply returns_identifyBuilding.
  - assert (Hr : r =
      match outcome g with
      | Ok gathered =>
        let ranked := rankCandidates coordinates (in_heading input) gathered in
        let p :=
          run h (persistResults env coordinates (in_heading input) radius
                   ranked) (world g) in
        {| outcome :=
             Ok {| candidates := ranked;
                   searchRadius := radius;
                   searchCenter := coordinates;
                   heading := in_heading input;
                   timestamp := clock h (world p) |};
           world := world p;
           trace := trace r0 ++ trace g ++ trace p |}
      | Throw e =>
        {| outcome := Throw e; world := world g;
           trace := trace r0 ++ trace g |}
      end).
    { subst r. apply run_identify_miss. exact Hr0. }
    split; [| split; [| split]].
    + intros e. rewrite Hr, Hgather.
      destruct (outcome r2) as [nearby | e2]; cbv beta iota zeta.
      * case_decide; cbn [outcome];
          (split; [discriminate | intros [_ ?]; discriminate]).
      * split; [intros [= ->]; auto | intros [_ [= ->]]; reflexivity].
    + intros nearby _ Hr2. rewrite Hr, Hgather, Hr2. cbv beta iota zeta.
      case_decide; cbn [outcome]; do 2 eexists;
        (split; [reflexivity |]); split; reflexivity.
    + intros _ Hnil Hr2 Hr3. rewrite Hnil in Hr1. injection Hr1 as <-.
      rewrite Hr, Hgather, Hr2, Hr3. cbv beta iota zeta.
      cbn [app map length]. case_decide; [| lia]. cbn [outcome].
      eexists. split; reflexivity.
    + apply returns_identifyBuilding.
Qed.

Lemma identifyBuilding_error_propagation_witness :
  exists res,
    outcome (run (Scenario.handler None [] true)
               (identifyBuilding Scenario.env Scenario.input) tt) = Ok res /\
    candidates res = [].
Proof.
  pose proof (identifyBuilding_error_propagation
                (Scenario.handler None [] true) Scenario.env
                (findNearbyPlaces Scenario.env) Scenario.input tt) as H.
  cbv zeta in H. destruct H as (_ & _ & H & _).
  apply H; reflexivity.
Defined.

(** C1 as stated fails: in a run where the result cache misses, the
    places adapter returns an empty list and both geocoding providers
    fail, [identifyBuilding] returns the candidate of the building
    cache, not an empty list. *)
Lemma identifyBuilding_returns_cached_building :
  let h := Scenario.handler None [Scenario.cityHall] true in
  let coordinates := userCoordinatesOf Scenario.input in
  let radius := searchRadiusOf Scenario.env Scenario.input in
  outcome (run h (findNearbyPlaces Scenario.env coordinates radius) tt) = Ok []
  /\ outcome (run h (geocodeWithGoogle coordinates) tt) = Ok None
  /\ outcome (run h (geocodeWithNominatim coordinates) tt) = Ok None
  /\ outcome (run h (reverseGeocode Scenario.env coordinates) tt) = Ok None
  /\ exists res,
       outcome (run h (identifyBuilding Scenario.env Scenario.input) tt) = Ok res
       /\ length (candidates res) = 1%nat.
Proof.
  intros h coordinates radius.
  assert (Hplaces :
    outcome (run h (findNearbyPlaces Scenario.env coordinates radius) tt) = Ok [])
    by reflexivity.
  assert (Hgeocode :
    outcome (run h (reverseGeocode Scenario.env coordinates) tt) = Ok None)
    by reflexivity.
  do 4 (split; [reflexivity |]).
  unfold identifyBuilding.
  rewrite (run_identify_miss h Scenario.env (findNearbyPlaces Scenario.env)
             Scenario.input tt eq_refl).
  cbv zeta. fold coordinates radius.
  destruct (returns_gatherCandidates Scenario.env
              (findNearbyPlaces Scenario.env) coordinates radius
              (returns_findNearbyPlaces Scenario.env coordinates radius)
              unit h tt) as [gathered Hg].
  change (world _) with tt at 1. rewrite Hg. cbn [outcome].
  eexists. split; [reflexivity |]. cbn [candidates].
  rewrite length_rankCandidates.
  assert (Hlen :
    match outcome (run h (gatherCandidates Scenario.env
                            (findNearbyPlaces Scenario.env)
                            coordinates radius) tt) with
    | Ok found => length found = 1%nat
    | Throw _ => False
    end) by reflexivity.
  rewrite Hg in Hlen. exact Hlen.
Qed.

(** C6. In the gathering step the geocoding adapter is called if and
    only if the building cache and the places adapter together yielded
    fewer than three candidates.  When it is called, its run follows
    theirs and the candidates are theirs followed by the one candidate
    of its result, or by none when it returns null; when it is not
    called, the candidates are exactly theirs. *)
Theorem gatherCandidates_geocoding_fallback {W : Type} (h : Handler W)
    (env : Env) (coordinates : Coordinates) (radius : R) (w : W) :
  let r1 := run h (getCachedBuildings coordinates radius) w in
  let r2 := run h (findNearbyPlaces env coordinates radius) (world r1) in
  let r3 := run h (reverseGeocode env coordinates) (world r2) in
  let g :=
    run h (gatherCandidates env (findNearbyPlaces env) coordinates radius) w in
  exists cached nearby geocoded,
    outcome r1 = Ok cached /\ outcome r2 = Ok nearby /\
    outcome r3 = Ok geocoded /\
    let found := cached ++ map placeCandidate nearby in
    (Exists (fun c => is_geocoding_call c = true) (trace g) <->
     (length found < 3)%nat)
    /\ ((length found < 3)%nat ->
        trace g = trace r1 ++ trace r2 ++ trace r3 /\
        world g = world r3 /\
        outcome g =
          Ok (found ++
              match geocoded with
              | Some geocoded => [geocodeCandidate geocoded]
              | None => []
              end))
    /\ (~ (length found < 3)%nat ->
        trace g = trace r1 ++ trace r2 /\
        world g = world r2 /\
        outcome g = Ok found).
Proof.
  intros r1 r2 r3 g.
  destruct (returns_getCachedBuildings coordinates radius W h w)
    as [cached Hr1]. fold r1 in Hr1.
  destruct (returns_findNearbyPlaces env coordinates radius W h (world r1))
    as [nearby Hr2]. fold r2 in Hr2.
  destruct (returns_reverseGeocode env coordinates W h (world r2))
    as [geocoded Hr3]. fold r3 in Hr3.
  exists cached, nearby, geocoded. do 3 (split; [assumption |]).
  intros found.
  assert (Hg : g =
    if decide (length found < 3)%nat then
      {| outcome :=
           Ok (found ++
               match geocoded with
               | Some geocoded => [geocodeCandidate geocoded]
               | None => []
               end);
         world := world r3;
         trace := trace r1 ++ trace r2 ++ trace r3 |}
    else
      {| outcome := Ok found; world := world r2;
         trace := trace r1 ++ trace r2 |}).
  { subst g. rewrite (run_gatherCandidates h env _ _ _ _ cached Hr1).
    fold r1 r2 r3. rewrite Hr2. cbv beta iota zeta. rewrite Hr3. fold found.
    case_decide; destruct geocoded; reflexivity. }
  assert (H1 : Forall (fun c => is_geocoding_call c = false) (trace r1)).
  { apply calls_only_trace, calls_only_getCachedBuildings; reflexivity. }
  assert (H2 : Forall (fun c => is_geocoding_call c = false) (trace r2)).
  { apply calls_only_trace, calls_only_findNearbyPlaces; reflexivity. }
  assert (Hquiet : forall l,
    Forall (fun c => is_geocoding_call c = false) l ->
    ~ Exists (fun c => is_geocoding_call c = true) l).
  { intros l Hl Hex. apply Exists_exists in Hex as (c & Hc & Htrue).
    rewrite Forall_forall in Hl. specialize (Hl c Hc). congruence. }
  rewrite Hg. split; [| split].
  - case_decide as Hlen; cbn [trace]; split; try tauto.
    + intros _. destruct (trace_reverseGeocode_head env h coordinates (world r2))
        as [rest Hhead]. fold r3 in Hhead. rewrite Hhead.
      rewrite !Exists_app. right. right. apply Exists_cons_hd. reflexivity.
    + rewrite Exists_app. intros [Hex | Hex]; exfalso;
        [apply (Hquiet _ H1 Hex) | apply (Hquiet _ H2 Hex)].
  - intros Hlen. rewrite decide_True by exact Hlen. auto.
  - intros Hlen. rewrite decide_False by exact Hlen. auto.
Qed.

Lemma gatherCandidates_geocoding_fallback_witness :
  let h := Scenario.handler None [Scenario.cityHall] true in
  let coordinates := userCoordinatesOf Scenario.input in
  let radius := searchRadiusOf Scenario.env Scenario.input in
  exists cached,
    outcome (run h (getCachedBuildings coordinates radius) tt) = Ok cached /\
    outcome (run h (gatherCandidates Scenario.env
                      (findNearbyPlaces Scenario.env) coordinates radius) tt) =
      Ok cached.
Proof.
  intros h coordinates radius.
  destruct (gatherCandidates_geocoding_fallback h Scenario.env coordinates
              radius tt)
    as (cached & nearby & geocoded & Hr1 & Hr2 & Hr3 & _ & Hcalled & _).
  exists cached. split; [exact Hr1 |].
  assert (Hnearby : nearby = []).
  { assert (E : outcome (run h (findNearbyPlaces Scenario.env coordinates
                                  radius) tt) = Ok []) by reflexivity.
    change (world _) with tt in Hr2. congruence. }
  assert (Hgeocoded : geocoded = None).
  { assert (E : outcome (run h (reverseGeocode Scenario.env coordinates) tt)
                = Ok None) by reflexivity.
    change (world _) with tt in Hr3. congruence. }
  assert (Hcached : length cached = 1%nat).
  { assert (E : match outcome (run h (getCachedBuildings coordinates radius) tt)
                with Ok l => length l = 1%nat | Throw _ => False end)
      by reflexivity.
    rewrite Hr1 in E. exact E. }
  subst nearby geocoded. cbn [map] in Hcalled. rewrite !app_nil_r in Hcalled.
  apply Hcalled. lia.
Defined.






End OrchestratorClaims.

(** * The metadata written to the building cache *)

Section MetadataFacts.

Import Js Types Config World Database Cache.








End MetadataFacts.

Section CacheClaims.

Import Js Types Config World Database Cache.




End CacheClaims.

(** * Further properties of bearing.service.ts *)

Section BearingProperties.

Import Js Types Bearing.
Local Open Scope R_scope.

Lemma rem_360_range (x : R) :
  exists k : Z, rem x 360 = x - 360 * IZR k /\
    (0 <= x -> 0 <= rem x 360 < 360) /\
    (x < 0 -> -360 < rem x 360 <= 0).
Proof.
  unfold rem, Ztrunc. exists (if decide (0 <= x / 360) then Zfloor (x / 360)
                              else Zceil (x / 360)).
  split; [destruct (decide _); reflexivity |].
  split; intros Hx.
  - destruct (decide (0 <= x / 360)) as [_ | Hn]; [| exfalso; apply Hn; lra].
    pose proof (Zfloor_bound (x / 360)). lra.
  - destruct (decide (0 <= x / 360)) as [Hn | _]; [lra |].
    pose proof (Zceil_bound (x / 360)). lra.
Qed.

Lemma normalizeBearing_turns (x : R) :
  exists k : Z, normalizeBearing x = x - 360 * IZR k /\
    0 <= normalizeBearing x < 360.
Proof.
  unfold normalizeBearing.
  destruct (rem_360_range x) as (k & Hk & Hpos & Hneg).
  destruct (Rle_or_lt 0 x) as [Hx | Hx].
  - specialize (Hpos Hx). exists k.
    destruct (decide (rem x 360 < 0)); [lra |]. split; [exact Hk | lra].
  - specialize (Hneg Hx).
    destruct (decide (rem x 360 < 0)).
    + exists (k - 1)%Z. rewrite minus_IZR. split; lra.
    + exists k. split; [exact Hk | lra].
Qed.

Lemma normalizeBearing_range (x : R) : 0 <= normalizeBearing x < 360.
Proof. destruct (normalizeBearing_turns x) as (k & _ & Hrange). exact Hrange. Qed.

Lemma normalizeBearing_eq_floor (x : R) :
  normalizeBearing x = x - 360 * IZR (Zfloor (x / 360)).
Proof.
  destruct (normalizeBearing_turns x) as (k & Hk & Hrange).
  rewrite Hk. do 3 f_equal. symmetry. apply Zfloor_eq. lra.
Qed.

Lemma normalizeBearing_add_turns (x : R) (n : Z) :
  normalizeBearing (x + 360 * IZR n) = normalizeBearing x.
Proof.
  rewrite !normalizeBearing_eq_floor.
  replace ((x + 360 * IZR n) / 360) with (x / 360 + IZR n) by lra.
  rewrite Zfloor_addz, plus_IZR. lra.
Qed.

Lemma calculateBearingDifference_bounds (x y : R) :
  0 <= calculateBearingDifference x y <= 180.
Proof.
  unfold calculateBearingDifference, Math_abs.
  pose proof (normalizeBearing_range x) as Hx.
  pose proof (normalizeBearing_range y) as Hy.
  assert (Habs : 0 <= Rabs (normalizeBearing x - normalizeBearing y) < 360).
  { split; [apply Rabs_pos |]. apply Rabs_def1; lra. }
  destruct (decide _); lra.
Qed.



(** X3. For all real bearings, normalized or not,
    [calculateBearingDifference] lies in [0,180], is symmetric, is 0 for
    equal bearings and does not change when whole turns are added to
    either bearing. *)
Theorem calculateBearingDifference_any (x y : R) (j k : Z) :
  0 <= calculateBearingDifference x y <= 180 /\
  calculateBearingDifference x y = calculateBearingDifference y x /\
  calculateBearingDifference x x = 0 /\
  calculateBearingDifference (x + 360 * IZR j) (y + 360 * IZR k) =
    calculateBearingDifference x y.
Proof.
  split; [apply calculateBearingDifference_bounds |].
  unfold calculateBearingDifference, Math_abs.
  rewrite !normalizeBearing_add_turns.
  rewrite (Rabs_minus_sym (normalizeBearing y)).
  split; [| split].
  - reflexivity.
  - replace (normalizeBearing x - normalizeBearing x) with 0 by lra.
    rewrite Rabs_R0. destruct (decide _); lra.
  - reflexivity.
Qed.





End BearingProperties.

(** * Further properties of scoring.service.ts *)

Section ScoringProperties.

Import Js Types Scoring.
Local Open Scope R_scope.


(** The score as its rounded percentage. *)
Lemma calculateConfidenceScore_unfold (factors : ScoringFactors) :
  calculateConfidenceScore factors =
    Math_round
      (4000 * calculateDistanceScore (sf_distance factors) +
       3000 * calculateBearingScore (sf_bearingDiff factors) +
       2000 * calculateSourceScore (sf_source factors) +
       1000 * calculateMetadataScore (sf_hasName factors)
                (sf_hasRating factors)) / 100.
Proof.
  unfold calculateConfidenceScore, SCORING_WEIGHTS.distance,
    SCORING_WEIGHTS.bearing, SCORING_WEIGHTS.source, SCORING_WEIGHTS.metadata.
  cbv zeta. do 2 f_equal. lra.
Qed.





(** X9. Every score is a whole number of hundredths and is at least 12,
    the share of the least reliable source; without a bearing
    difference it is at least 27. *)
Theorem calculateConfidenceScore_floor (factors : ScoringFactors) :
  (exists z : Z, calculateConfidenceScore factors = IZR z / 100) /\
  12 <= calculateConfidenceScore factors /\
  (sf_bearingDiff factors = None -> 27 <= calculateConfidenceScore factors).
Proof.
  rewrite calculateConfidenceScore_unfold.
  pose proof (calculateDistanceScore_range (sf_distance factors)) as HD.
  pose proof (calculateBearingScore_range (sf_bearingDiff factors)) as HB.
  pose proof (calculateMetadataScore_range (sf_hasName factors)
                (sf_hasRating factors)) as HM.
  assert (HS : 0.6 <= calculateSourceScore (sf_source factors)).
  { unfold calculateSourceScore. destruct (sf_source factors); cbn; lra. }
  split; [eexists; unfold Math_round; reflexivity |].
  split.
  - match goal with |- _ <= Math_round ?p / _ =>
      pose proof (Math_round_mono (IZR 1200) p ltac:(lra)) as Hr
    end.
    rewrite Math_round_IZR in Hr. lra.
  - intros Hnone. rewrite Hnone in *. cbn [calculateBearingScore] in *.
    match goal with |- _ <= Math_round ?p / _ =>
      pose proof (Math_round_mono (IZR 2700) p ltac:(lra)) as Hr
    end.
    rewrite Math_round_IZR in Hr. lra.
Qed.

Lemma calculateConfidenceScore_floor_witness :
  27 <= calculateConfidenceScore
          {| sf_distance := 250; sf_bearingDiff := None;
             sf_source := nominatim; sf_hasName := false;
             sf_hasRating := None |}.
Proof.
  apply (calculateConfidenceScore_floor
           {| sf_distance := 250; sf_bearingDiff := None;
              sf_source := nominatim; sf_hasName := false;
              sf_hasRating := None |}).
  reflexivity.
Defined.

End ScoringProperties.

(** * Further properties of database.service.ts *)

Section DatabaseProperties.

Import Js Types World Database.

Context {W : Type} (h : Handler W).

Lemma run_ret {A} (a : A) (w : W) :
  run h (ret a) w = {| outcome := Ok a; world := w; trace := [] |}.
Proof. reflexivity. Qed.

Lemma run_throw {A} (e : Error) (w : W) :
  run h (throw e : Prog A) w =
    {| outcome := Throw e; world := w; trace := [] |}.
Proof. reflexivity. Qed.

Lemma run_release (w : W) :
  @run W unit h (perform ClientRelease) w =
    {| outcome := (answer h ClientRelease w).1;
       world := (answer h ClientRelease w).2;
       trace := [ClientRelease] |}.
Proof. exact (run_perform h ClientRelease w). Qed.

Ltac run_step :=
  rewrite ?run_ret, ?run_throw, ?run_perform, ?run_release;
  cbn [outcome world trace app].

(** X10. [findBuildingsNearLocation] throws the pool's error and issues
    no query when no client can be had.  With a client it issues the
    one radius query and then releases the client, whether the query
    succeeded or failed; it returns one building per row, in the order
    of the rows, or throws the query's error on (the error of the
    release, should the release itself fail). *)
Theorem findBuildingsNearLocation_run (coordinates : Coordinates)
    (radiusMeters : R) (w : W) :
  let query :=
    ClientQuery (SelectNear (longitude coordinates) (latitude coordinates)
                   radiusMeters) in
  let connected := answer h PoolConnect w in
  let queried := answer h query connected.2 in
  let released := answer h ClientRelease queried.2 in
  run h (findBuildingsNearLocation coordinates radiusMeters) w =
    match connected.1 with
    | Throw e =>
      {| outcome := Throw e; world := connected.2; trace := [PoolConnect] |}
    | Ok _ =>
      {| outcome :=
           match released.1, queried.1 with
           | Throw e, _ => Throw e
           | Ok _, Throw e => Throw e
           | Ok _, Ok rows => Ok (map rowToCachedBuilding rows)
           end;
         world := released.2;
         trace := [PoolConnect; query; ClientRelease] |}
    end.
Proof.
  intros query connected queried released.
  unfold findBuildingsNearLocation.
  rewrite run_bind, run_perform. cbn [outcome world trace]. fold connected.
  destruct (connected.1) as [client | e]; [| reflexivity].
  rewrite run_try_finally, run_rethrow, run_bind, !run_perform.
  cbn [outcome world trace]. fold query queried.
  destruct (queried.1) as [rows | e]; run_step; fold released;
    destruct (released.1); reflexivity.
Qed.

Lemma run_getBuildingByExternalId (externalId source : string) (w : W) :
  let query := ClientQuery (SelectByExternalId externalId source) in
  let connected := answer h PoolConnect w in
  let queried := answer h query connected.2 in
  let released := answer h ClientRelease queried.2 in
  run h (getBuildingByExternalId externalId source) w =
    match connected.1 with
    | Throw e =>
      {| outcome := Throw e; world := connected.2; trace := [PoolConnect] |}
    | Ok _ =>
      {| outcome :=
           match released.1, queried.1 with
           | Throw e, _ => Throw e
           | Ok _, Throw e => Throw e
           | Ok _, Ok rows => Ok (rowToCachedBuilding <$> head rows)
           end;
         world := released.2;
         trace := [PoolConnect; query; ClientRelease] |}
    end.
Proof.
  intros query connected queried released.
  unfold getBuildingByExternalId.
  rewrite run_bind, run_perform. cbn [outcome world trace]. fold connected.
  destruct (connected.1) as [client | e]; [| reflexivity].
  rewrite run_try_finally, run_rethrow, run_bind, !run_perform.
  cbn [outcome world trace]. fold query queried.
  destruct (queried.1) as [[| row rows] | e]; run_step; fold released;
    destruct (released.1); reflexivity.
Qed.

(** The statement that [saveBuildingToDatabase] issues once it knows
    whether the building exists. *)
Let statementFor (building : BuildingData) (existingId : option string)
    : SqlStatement :=
  match existingId with
  | Some existingId =>
    UpdateBuilding (or_string (bd_name building) None) (bd_address building)
      (bd_longitude building) (bd_latitude building)
      (JSON_stringify <$> bd_metadata building) (bd_expiresAt building)
      existingId
  | None =>
    InsertBuilding (or_string (bd_externalId building) None)
      (bd_source building) (or_string (bd_name building) None)
      (bd_address building) (bd_longitude building) (bd_latitude building)
      (JSON_stringify <$> bd_metadata building) (bd_expiresAt building)
  end.

Lemma run_saveBuildingToDatabase (building : BuildingData) (w : W) :
  let connected := answer h PoolConnect w in
  let lookup :=
    if truthy_string (bd_externalId building) then
      run h (getBuildingByExternalId (default EmptyString (bd_externalId building))
               (bd_source building)) connected.2
    else {| outcome := Ok None; world := connected.2; trace := [] |} in
  run h (saveBuildingToDatabase building) w =
    match connected.1 with
    | Throw e =>
      {| outcome := Throw e; world := connected.2; trace := [PoolConnect] |}
    | Ok _ =>
      match outcome lookup with
      | Throw e =>
        let released := answer h ClientRelease (world lookup) in
        {| outcome :=
             match released.1 with Throw e' => Throw e' | Ok _ => Throw e end;
           world := released.2;
           trace := PoolConnect :: trace lookup ++ [ClientRelease] |}
      | Ok existing =>
        let statement :=
          statementFor building (or_string (cb_id <$> existing) None) in
        let written := answer h (ClientQuery statement) (world lookup) in
        let released := answer h ClientRelease written.2 in
        {| outcome :=
             match released.1, written.1 with
             | Throw e, _ => Throw e
             | Ok _, Throw e => Throw e
             | Ok _, Ok rows => Ok (returned_id rows)
             end;
           world := released.2;
           trace := PoolConnect :: trace lookup ++
                    [ClientQuery statement; ClientRelease] |}
      end
    end.
Proof.
  intros connected lookup. unfold saveBuildingToDatabase.
  rewrite run_bind, run_perform. cbn [outcome world trace]. fold connected.
  destruct (connected.1) as [client | e]; [| reflexivity].
  rewrite run_try_finally, run_rethrow, run_bind.
  assert (Hlookup :
    run h
      match bd_externalId building with
      | Some externalId =>
        if truthy_string (Some externalId) then
          bind (getBuildingByExternalId externalId (bd_source building))
            (fun existing => ret (or_string (cb_id <$> existing) None))
        else ret None
      | None => ret None
      end connected.2 =
    {| outcome :=
         match outcome lookup with
         | Ok existing => Ok (or_string (cb_id <$> existing) None)
         | Throw e => Throw e
         end;
       world := world lookup; trace := trace lookup |}).
  { subst lookup. destruct (bd_externalId building) as [externalId |];
      [| reflexivity].
    destruct (truthy_string (Some externalId)); [| reflexivity].
    rewrite run_bind. cbn [default from_option].
    destruct (outcome (run h _ connected.2)); cbn [outcome world trace];
      rewrite ?app_nil_r; reflexivity. }
  rewrite Hlookup. cbn [outcome world trace].
  destruct (outcome lookup) as [existing | e]; cbn [outcome world trace].
  - rewrite run_bind, run_perform. cbn [outcome world trace].
    fold (statementFor building (or_string (cb_id <$> existing) None)).
    destruct ((answer h (ClientQuery _) (world lookup)).1) as [rows | e];
      run_step; rewrite <- ?app_assoc; cbn [app];
      destruct ((answer h ClientRelease _).1); reflexivity.
  - run_step. destruct ((answer h ClientRelease _).1); reflexivity.
Qed.

(** X11. [saveBuildingToDatabase] looks the building up only when it
    has a non-empty external id; without one it inserts a new row
    straight away, so the run is the connect, the one [INSERT] and the
    release, and the id returned is that of the row the [INSERT]
    returns. *)
Theorem saveBuildingToDatabase_without_external_id (building : BuildingData)
    (w : W) :
  truthy_string (bd_externalId building) = false ->
  (answer h PoolConnect w).1 = Ok tt ->
  let insert :=
    ClientQuery
      (InsertBuilding None (bd_source building)
         (or_string (bd_name building) None) (bd_address building)
         (bd_longitude building) (bd_latitude building)
         (JSON_stringify <$> bd_metadata building) (bd_expiresAt building)) in
  let r := run h (saveBuildingToDatabase building) w in
  trace r = [PoolConnect; insert; ClientRelease] /\
  forall rows,
    (answer h insert (answer h PoolConnect w).2).1 = Ok rows ->
    (answer h ClientRelease
       (answer h insert (answer h PoolConnect w).2).2).1 = Ok tt ->
    outcome r = Ok (returned_id rows).
Proof.
  intros Hfalsy Hconnect insert r. subst r.
  rewrite run_saveBuildingToDatabase. cbv zeta.
  rewrite Hconnect, Hfalsy. cbn [outcome world trace fmap option_fmap option_map].
  assert (Hnone : or_string (bd_externalId building) None = None).
  { unfold or_string. rewrite Hfalsy. reflexivity. }
  unfold statementFor. change (or_string None None) with (@None string).
  cbv iota. rewrite Hnone. fold insert. cbn [app].
  split; [reflexivity |].
  intros rows. cbn [outcome].
  destruct (answer h insert (answer h PoolConnect w).2) as [written w1].
  cbn [fst snd].
  destruct (answer h ClientRelease w1) as [released w2]. cbn [fst snd].
  intros -> ->. reflexivity.
Qed.

End DatabaseProperties.

Section PostgresProperties.

Import Js Types World Database.

Lemma saveBuildingToDatabase_without_external_id_witness :
  trace (run (Scenario.handler None [] true)
           (saveBuildingToDatabase
              {| bd_externalId := None; bd_source := "nominatim";
                 bd_name := None; bd_address := "1 Main Street";
                 bd_latitude := 0; bd_longitude := 0;
                 bd_metadata := None; bd_expiresAt := None |}) tt) =
  [PoolConnect;
   ClientQuery (InsertBuilding None "nominatim" None "1 Main Street" 0 0
                  None None);
   ClientRelease].
Proof.
  apply (saveBuildingToDatabase_without_external_id
           (Scenario.handler None [] true)
           {| bd_externalId := None; bd_source := "nominatim";
              bd_name := None; bd_address := "1 Main Street";
              bd_latitude := 0; bd_longitude := 0;
              bd_metadata := None; bd_expiresAt := None |} tt);
    reflexivity.
Defined.

Context (uuid : list Row -> string) (now : R).
Context (near : R -> R -> R -> list Row -> list Row).

Let pg : Handler (list Row) := Postgres.handler uuid now near.

Lemma returned_id_head (rows : list Row) (row : Row) :
  head rows = Some row -> returned_id rows = Some (row_id row).
Proof.
  destruct rows as [| first others]; [discriminate |].
  cbn. intros [= ->]. reflexivity.
Qed.

Lemma matches_update (externalId source : string) (name : option string)
    (address : string) (lon lat : R) (metadata : option Metadata)
    (expiresAt : option R) (id : string) (row : Row) :
  Postgres.matches externalId source
    (Postgres.update now name address lon lat metadata expiresAt id row) <->
  Postgres.matches externalId source row.
Proof.
  unfold Postgres.matches, Postgres.update.
  destruct (decide (row_id row = id)); reflexivity.
Qed.

Lemma filter_matches_update (externalId source : string)
    (name : option string) (address : string) (lon lat : R)
    (metadata : option Metadata) (expiresAt : option R) (id : string)
    (table : list Row) :
  filter (Postgres.matches externalId source)
    (map (Postgres.update now name address lon lat metadata expiresAt id) table)
  = map (Postgres.update now name address lon lat metadata expiresAt id)
      (filter (Postgres.matches externalId source) table).
Proof.
  induction table as [| row table IH]; [reflexivity |].
  cbn [map]. rewrite !filter_cons.
  destruct (decide (Postgres.matches externalId source row)) as [Hm | Hm].
  - rewrite decide_True by (apply matches_update; exact Hm).
    cbn [map]. rewrite IH. reflexivity.
  - rewrite decide_False by (rewrite matches_update; exact Hm).
    exact IH.
Qed.

(** X12. On a table that runs the statements of the service, saving a
    building with a non-empty external id is an upsert by external id
    and source: when a row of that key exists the save updates it and
    adds none, otherwise it adds one row; either way the id returned is
    that of the row which [getBuildingByExternalId] then finds, and
    that row holds the saved name, address, position, metadata and
    expiry. *)
Theorem saveBuildingToDatabase_upsert (building : BuildingData)
    (externalId : string) (table : list Row) :
  bd_externalId building = Some externalId ->
  externalId <> EmptyString ->
  uuid table <> EmptyString ->
  Forall (fun row => row_id row <> EmptyString) table ->
  let source := bd_source building in
  let r := run pg (saveBuildingToDatabase building) table in
  let found := run pg (getBuildingByExternalId externalId source) (world r) in
  (length (filter (Postgres.matches externalId source) (world r)) =
     Nat.max 1 (length (filter (Postgres.matches externalId source) table))) /\
  (length (world r) =
     length table +
     (if decide (filter (Postgres.matches externalId source) table = [])
      then 1 else 0))%nat /\
  exists id stored,
    outcome r = Ok (Some id) /\
    outcome found = Ok (Some stored) /\
    cb_id stored = id /\
    cb_externalId stored = Some externalId /\
    cb_source stored = source /\
    cb_name stored = or_string (bd_name building) None /\
    cb_address stored = bd_address building /\
    cb_latitude stored = bd_latitude building /\
    cb_longitude stored = bd_longitude building /\
    cb_metadata stored = JSON_stringify <$> bd_metadata building /\
    cb_expiresAt stored = bd_expiresAt building.
Proof.
  intros Hext Hnonempty Huuid Hids source r found.
  assert (Htruthy : truthy_string (Some externalId) = true).
  { unfold truthy_string. rewrite decide_False by exact Hnonempty.
    reflexivity. }
  assert (Hor : or_string (Some externalId) None = Some externalId).
  { unfold or_string. rewrite Htruthy. reflexivity. }
  assert (Hr : r = _) by exact (run_saveBuildingToDatabase pg building table).
  cbv zeta in Hr. rewrite Hext, Htruthy in Hr.
  rewrite run_getBuildingByExternalId in Hr.
  cbn [answer pg Postgres.handler Postgres.answers fst snd outcome world trace
       default from_option Postgres.execute] in Hr.
  unfold Datatypes.id in Hr. rewrite ?Hext in Hr. fold source in Hr.
  assert (Hfound : found = _)
    by exact (run_getBuildingByExternalId pg externalId source (world r)).
  cbn [answer pg Postgres.handler Postgres.answers fst snd outcome world trace
       Postgres.execute] in Hfound.
  destruct (filter (Postgres.matches externalId source) table)
    as [| row rest] eqn:Hfilter.
  - cbn [head fmap option_fmap option_map] in Hr.
    change (or_string None None) with (@None string) in Hr.
    cbn [answer pg Postgres.handler Postgres.answers fst snd outcome world
         trace Postgres.execute returned_id row_id] in Hr.
    rewrite Hor in Hr.
    rewrite Hr in Hfound |- *. cbn [world outcome] in Hfound |- *.
    rewrite filter_app, Hfilter in Hfound |- *.
    rewrite filter_cons, decide_True in Hfound |- * by (split; reflexivity).
    rewrite filter_nil in Hfound |- *. cbn [app head length] in Hfound |- *.
    rewrite length_app. cbn [length].
    split; [reflexivity |]. split; [rewrite decide_True by reflexivity; lia |].
    rewrite Hfound. do 2 eexists. repeat split; reflexivity.
  - assert (Hrow : Postgres.matches externalId source row /\ row ∈ table).
    { apply (list_elem_of_filter (Postgres.matches externalId source)).
      rewrite Hfilter. left. }
    destruct Hrow as [Hmatch Hin].
    assert (Hid : row_id row <> EmptyString).
    { rewrite Forall_forall in Hids. apply Hids, Hin. }
    cbn [head fmap option_fmap option_map rowToCachedBuilding cb_id] in Hr.
    assert (Hor' : or_string (Some (row_id row)) None = Some (row_id row)).
    { unfold or_string, truthy_string. rewrite decide_False by exact Hid.
      reflexivity. }
    rewrite Hor' in Hr.
    cbn [answer pg Postgres.handler Postgres.answers fst snd outcome world
         trace Postgres.execute] in Hr.
    rewrite Hr in Hfound |- *. cbn [world outcome] in Hfound |- *.
    rewrite filter_matches_update, Hfilter in Hfound |- *.
    rewrite !length_map. cbn [map head length] in Hfound |- *.
    split; [lia |]. split; [rewrite decide_False by discriminate; lia |].
    assert (Hhead :
      head (filter (fun row0 => row_id row0 = row_id row)
              (map (Postgres.update now (or_string (bd_name building) None)
                      (bd_address building) (bd_longitude building)
                      (bd_latitude building)
                      (JSON_stringify <$> bd_metadata building)
                      (bd_expiresAt building) (row_id row)) table)) <> None).
    { apply list_elem_of_split in Hin as (l1 & l2 & ->).
      rewrite map_app, filter_app. cbn [map].
      rewrite (filter_cons _ (Postgres.update _ _ _ _ _ _ _ _ row)).
      rewrite decide_True.
      - destruct (filter _ (map _ l1)); discriminate.
      - unfold Postgres.update. rewrite decide_True by reflexivity.
        reflexivity. }
    destruct (head _) as [returned |] eqn:Hreturned; [| congruence].
    assert (Hreturned_id : row_id returned = row_id row).
    { apply head_Some_elem_of in Hreturned.
      apply list_elem_of_filter in Hreturned as [Hret _]. exact Hret. }
    assert (Hid_returned :
      returned_id
        (filter (fun row0 => row_id row0 = row_id row)
           (map (Postgres.update now (or_string (bd_name building) None)
                   (bd_address building) (bd_longitude building)
                   (bd_latitude building)
                   (JSON_stringify <$> bd_metadata building)
                   (bd_expiresAt building) (row_id row)) table))
      = Some (row_id row)).
    { rewrite (returned_id_head _ _ Hreturned). congruence. }
    rewrite Hfound, Hid_returned.
    destruct Hmatch as [Hm1 Hm2].
    exists (row_id row), (rowToCachedBuilding
      (Postgres.update now (or_string (bd_name building) None)
         (bd_address building) (bd_longitude building) (bd_latitude building)
         (JSON_stringify <$> bd_metadata building) (bd_expiresAt building)
         (row_id row) row)).
    unfold Postgres.update. rewrite decide_True by reflexivity.
    cbn.
    repeat split; try reflexivity; assumption.
Qed.

End PostgresProperties.

Lemma saveBuildingToDatabase_upsert_witness :
  let building :=
    {| Types.bd_externalId := Some "ChIJ-city-hall";
       Types.bd_source := "google_places";
       Types.bd_name := Some "City Hall";
       Types.bd_address := "1 Main Street";
       Types.bd_latitude := 0; Types.bd_longitude := 0;
       Types.bd_metadata := None; Types.bd_expiresAt := None |} in
  let pg := Postgres.handler (fun _ => "b-1") 0 (fun _ _ _ table => table) in
  let once := World.run pg (Database.saveBuildingToDatabase building) [] in
  let twice :=
    World.run pg (Database.saveBuildingToDatabase building) (World.world once) in
  length (World.world once) = 1%nat /\ length (World.world twice) = 1%nat.
Proof.
  intros building pg once twice. split.
  - apply (saveBuildingToDatabase_upsert (fun _ => "b-1") 0
             (fun _ _ _ table => table) building "ChIJ-city-hall" []);
      [reflexivity | discriminate | discriminate | constructor].
  - apply (saveBuildingToDatabase_upsert (fun _ => "b-1") 0
             (fun _ _ _ table => table) building "ChIJ-city-hall"
             (World.world once));
      [reflexivity | discriminate | discriminate |].
    repeat constructor. discriminate.
Defined.

(** * Further properties of cache.service.ts *)

Ltac run_simpl :=
  rewrite ?run_ret, ?run_throw, ?run_perform, ?run_release;
  cbn [World.outcome World.world World.trace app].

Section CacheProperties.

Import Js Types Config World Database Cache.
Local Open Scope R_scope.

Context {W : Type} (h : Handler W).

(** X13. [getCachedBuildings] does not throw.  It returns no candidate
    when the pool has no client, when the radius query fails or when the
    release of the client fails; otherwise it returns one candidate per
    row of the radius query, in the order of the rows, each with the
    row's id, source [cache] and distance, bearing and confidence 0. *)
Theorem getCachedBuildings_run (coordinates : Coordinates) (radiusMeters : R)
    (w : W) :
  let query :=
    ClientQuery (SelectNear (longitude coordinates) (latitude coordinates)
                   radiusMeters) in
  let connected := answer h PoolConnect w in
  let queried := answer h query connected.2 in
  let released := answer h ClientRelease queried.2 in
  let r := run h (getCachedBuildings coordinates radiusMeters) w in
  exists found,
    outcome r = Ok found /\
    found =
      match connected.1, queried.1, released.1 with
      | Ok _, Ok rows, Ok _ =>
        map cachedBuildingToCandidate (map rowToCachedBuilding rows)
      | _, _, _ => []
      end /\
    Forall (fun c =>
              c_source c = cache /\ c_distance c = 0 /\ c_bearing c = 0 /\
              c_bearingDiff c = None /\ c_confidence c = 0 /\
              is_Some (c_id c)) found.
Proof.
  intros query connected queried released r. subst r.
  unfold getCachedBuildings, findBuildingsNearLocation.
  rewrite run_try_catch, !run_bind, run_perform. cbn [outcome world trace].
  fold connected.
  destruct (connected.1) as [client | e]; cbn [outcome world trace].
  - rewrite run_try_finally, run_rethrow, run_bind, !run_perform.
    cbn [outcome world trace]. fold query queried.
    destruct (queried.1) as [rows | e]; run_simpl; fold released;
      destruct (released.1); run_simpl;
      eexists; (split; [reflexivity |]); (split; [reflexivity |]);
      try constructor.
    induction rows as [| row rows IH]; constructor; [| exact IH].
    cbn. repeat split; eauto.
  - eexists. split; [reflexivity |]. split; [reflexivity | constructor].
Qed.

End CacheProperties.

(** * The result cache across two requests *)

Section ResultCacheProperties.

Import Js Types Config World Cache Places Identify.
Local Open Scope R_scope.

Lemma Math_round_bucket (n : Z) (x : R) :
  IZR n - 1 / 2 <= x < IZR n + 1 / 2 -> Math_round x = IZR n.
Proof.
  intros Hx. unfold Math_round. f_equal. apply Zfloor_eq. lra.
Qed.

(** X14. The result-cache key does not tell apart headings that round
    to the same whole degree: with the same position and radius, any
    two headings in [n - 1/2, n + 1/2) give one key.  A request without
    a heading never shares its key with one that has a heading, and
    requests with different radii never share a key. *)
Theorem getIdentifyCacheKey_heading_bucket (lat lon radius : R) (n : Z)
    (heading1 heading2 : R) :
  IZR n - 1 / 2 <= heading1 < IZR n + 1 / 2 ->
  IZR n - 1 / 2 <= heading2 < IZR n + 1 / 2 ->
  getIdentifyCacheKey lat lon (Some heading1) radius =
    getIdentifyCacheKey lat lon (Some heading2) radius /\
  (forall lat' lon' radius',
     getIdentifyCacheKey lat lon (Some heading1) radius <>
       getIdentifyCacheKey lat' lon' None radius') /\
  (forall lat' lon' heading' radius',
     radius <> radius' ->
     getIdentifyCacheKey lat lon (Some heading1) radius <>
       getIdentifyCacheKey lat' lon' heading' radius').
Proof.
  intros H1 H2. unfold getIdentifyCacheKey. cbn.
  rewrite (Math_round_bucket n heading1 H1), (Math_round_bucket n heading2 H2).
  split; [reflexivity |]. split.
  - intros lat' lon' radius' Heq. discriminate Heq.
  - intros lat' lon' heading' radius' Hradius Heq.
    apply Hradius. injection Heq. auto.
Qed.

Lemma getIdentifyCacheKey_heading_bucket_witness :
  getIdentifyCacheKey 37.7749 (-122.4194) (Some 269.6) 500 =
    getIdentifyCacheKey 37.7749 (-122.4194) (Some 270.4) 500.
Proof.
  apply (getIdentifyCacheKey_heading_bucket 37.7749 (-122.4194) 500 270
           269.6 270.4); lra.
Defined.

Context {W : Type} (base : Handler W) (env : Env).

Let h : Handler (RedisStore.Store * W) := RedisStore.handler base.

Let keyOf (input : IdentifyBuildingInput) : IdentifyKey :=
  getIdentifyCacheKey (in_latitude input) (in_longitude input)
    (in_heading input) (searchRadiusOf env input).

Lemma world_cacheIdentifyResults (coordinates : Coordinates)
    (heading : option R) (radius : R) (candidates : list BuildingCandidate)
    (s : RedisStore.Store * W) :
  (world (run h (cacheIdentifyResults env coordinates heading radius candidates)
            s)).1
    (getIdentifyCacheKey (latitude coordinates) (longitude coordinates)
       heading radius)
  = Some candidates.
Proof.
  unfold cacheIdentifyResults. rewrite run_try_catch, run_perform.
  cbn [outcome world trace h RedisStore.handler answer RedisStore.answers
       fst snd].
  unfold RedisStore.setex. rewrite decide_True by reflexivity. reflexivity.
Qed.

(** X15. With a Redis that is up and keeps what it is given, a request
    that misses the result cache leaves its ranked candidates under its
    key, whatever the other services answer: a second request with the
    same key (the same position to five decimals, the same rounded
    heading, the same radius) is answered by the single read of that
    key and returns the candidates of the first request as they were
    ranked for the first request. *)
Theorem identifyBuilding_result_cache_round_trip
    (first second : IdentifyBuildingInput) (store : RedisStore.Store) (w : W) :
  store (keyOf first) = None ->
  keyOf second = keyOf first ->
  let r1 := run h (identifyBuilding env first) (store, w) in
  let r2 := run h (identifyBuilding env second) (world r1) in
  exists result1 result2,
    outcome r1 = Ok result1 /\
    outcome r2 = Ok result2 /\
    candidates result2 = candidates result1 /\
    trace r2 = [RedisGetIdentify (keyOf first)].
Proof.
  intros Hmiss Hkey r1 r2.
  assert (Hr0 :
    outcome (run h (getCachedIdentifyResults (userCoordinatesOf first)
                      (in_heading first) (searchRadiusOf env first))
               (store, w)) = Ok None).
  { rewrite run_getCachedIdentifyResults.
    cbn [outcome h RedisStore.handler answer RedisStore.answers fst snd
         userCoordinatesOf latitude longitude].
    fold (keyOf first). rewrite Hmiss. reflexivity. }
  assert (Hr1 : r1 = _)
    by exact (run_identify_miss h env (findNearbyPlaces env) first (store, w) Hr0).
  cbv zeta in Hr1.
  destruct (returns_gatherCandidates env (findNearbyPlaces env)
              (userCoordinatesOf first) (searchRadiusOf env first)
              (returns_findNearbyPlaces env _ _) _ h
              (world (run h (getCachedIdentifyResults (userCoordinatesOf first)
                               (in_heading first) (searchRadiusOf env first))
                        (store, w)))) as [gathered Hg].
  rewrite Hg in Hr1.
  set (ranked := rankCandidates (userCoordinatesOf first) (in_heading first)
                   gathered) in *.
  assert (Hstored : (world r1).1 (keyOf second) = Some ranked).
  { rewrite Hr1, Hkey. cbn [world]. unfold persistResults.
    rewrite run_bind.
    destruct (returns_Promise_allSettled
                (map (fun candidate =>
                        saveBuildingToCache candidate (CACHE_TTL.PLACES env))
                   (topCandidates ranked)) _ h
                (world (run h (gatherCandidates env (findNearbyPlaces env)
                                 (userCoordinatesOf first)
                                 (searchRadiusOf env first))
                          (world (run h (getCachedIdentifyResults
                                           (userCoordinatesOf first)
                                           (in_heading first)
                                           (searchRadiusOf env first))
                                    (store, w))))))
      as [settled Hsettled].
    rewrite Hsettled. cbn [outcome world trace].
    apply world_cacheIdentifyResults. }
  assert (Hr0' :
    run h (getCachedIdentifyResults (userCoordinatesOf second)
             (in_heading second) (searchRadiusOf env second)) (world r1) =
    {| outcome := Ok (Some ranked); world := world r1;
       trace := [RedisGetIdentify (keyOf first)] |}).
  { rewrite run_getCachedIdentifyResults.
    cbn [outcome h RedisStore.handler answer RedisStore.answers fst snd
         userCoordinatesOf latitude longitude].
    fold (keyOf second). rewrite Hstored, Hkey. reflexivity. }
  pose proof (run_identify_hit h env (findNearbyPlaces env) second (world r1)
                ranked) as Hr2.
  cbv zeta in Hr2. rewrite Hr0' in Hr2. specialize (Hr2 eq_refl).
  cbn [outcome world trace] in Hr2.
  do 2 eexists. split; [rewrite Hr1; cbn [outcome]; reflexivity |].
  change r2
    with (run h (identifyBuildingWith env (findNearbyPlaces env) second)
            (world r1)).
  rewrite Hr2. cbn [outcome trace candidates]. repeat split; reflexivity.
Qed.

End ResultCacheProperties.

Lemma identifyBuilding_result_cache_round_trip_witness :
  let second :=
    {| Types.in_latitude := 37.7749%R; Types.in_longitude := (-122.4194)%R;
       Types.in_heading := Some 270.4%R;
       Types.in_searchRadius := Some 500%R |} in
  let h :=
    RedisStore.handler (Scenario.handler None [Scenario.cityHall] true) in
  let r1 :=
    World.run h (Identify.identifyBuilding Scenario.env Scenario.input)
      (RedisStore.empty, tt) in
  let r2 :=
    World.run h (Identify.identifyBuilding Scenario.env second)
      (World.world r1) in
  exists result1 result2,
    World.outcome r1 = World.Ok result1 /\
    World.outcome r2 = World.Ok result2 /\
    Types.candidates result2 = Types.candidates result1 /\
    length (World.trace r2) = 1%nat.
Proof.
  intros second h r1 r2.
  destruct (identifyBuilding_result_cache_round_trip
              (Scenario.handler None [Scenario.cityHall] true) Scenario.env
              Scenario.input second RedisStore.empty tt)
    as (result1 & result2 & H1 & H2 & Hsame & Htrace).
  - reflexivity.
  - unfold Cache.getIdentifyCacheKey. cbn. do 2 f_equal.
    rewrite (Math_round_bucket 270 270.4%R), (Math_round_bucket 270 270%R)
      by lra.
    reflexivity.
  - exists result1, result2. fold h r1 r2 in H1, H2, Htrace.
    rewrite Htrace. auto.
Defined.

(** * Further properties of the orchestrator *)

Section RankingProperties.

Import Js Types Config World Bearing Scoring Cache Places Identify.
Local Open Scope R_scope.




Context {W : Type} (h : Handler W) (env : Env).


End RankingProperties.


(** * Further properties of places.service.ts *)

Section PlacesProperties.

Import Js Types Config World Places.

(** X18. The conversion of the places that pass the filter of
    [findNearbyPlaces] does not throw: every place that has a building
    type and a location is converted, in the order of the response, to
    a result with its place id, name, rating, rating count and types,
    the coordinates of its location, and as address its vicinity, else
    its formatted address, else the empty text. *)
Theorem toPlaceResult_filtered (places : list RawPlace) :
  exists results,
    map_throwing toPlaceResult (filter isBuildingPlace places) = Ok results /\
    Forall2
      (fun place result =>
         pr_placeId result = place_id place /\
         pr_name result = name place /\
         pr_rating result = rating place /\
         pr_userRatingsTotal result = user_ratings_total place /\
         pr_types result = types place /\
         (exists loc,
            geometry place ≫= location = Some loc /\
            pr_coordinates result =
              {| latitude := lat loc; longitude := lng loc |}) /\
         pr_address result =
           match or_string (vicinity place) (formatted_address place) with
           | Some address => address
           | None => EmptyString
           end)
      (filter isBuildingPlace places) results.
Proof.
  induction places as [| place places (results & Hresults & Hall)].
  - exists []. split; [reflexivity | constructor].
  - rewrite filter_cons. destruct (decide (isBuildingPlace place)) as [Hp | Hp];
      [| exists results; split; assumption].
    unfold isBuildingPlace in Hp.
    apply Is_true_true, andb_true_iff in Hp as [_ Hloc].
    cbn [map_throwing]. unfold toPlaceResult at 1.
    destruct (geometry place ≫= location) as [loc |] eqn:Hgeo;
      [| discriminate Hloc].
    rewrite Hresults. eexists. split; [reflexivity |].
    constructor; [| exact Hall].
    cbn. repeat split; try reflexivity.
    + exists loc. rewrite Hgeo. split; reflexivity.
    + unfold or_string, truthy_string.
      destruct (vicinity place) as [v |];
        [destruct (decide (v = EmptyString)) |];
        destruct (formatted_address place) as [f |];
        repeat case_decide; cbn; congruence.
Qed.

Lemma map_throwing_filtered (places : list RawPlace) :
  exists results,
    map_throwing toPlaceResult (filter isBuildingPlace places) = Ok results.
Proof.
  induction places as [| place places (results & Hresults)];
    [exists []; reflexivity |].
  rewrite filter_cons. destruct (decide (isBuildingPlace place)) as [Hp | Hp];
    [| exists results; exact Hresults].
  unfold isBuildingPlace in Hp.
  apply Is_true_true, andb_true_iff in Hp as [_ Hloc].
  cbn [map_throwing]. unfold toPlaceResult at 1.
  destruct (geometry place ≫= location) as [loc |]; [| discriminate Hloc].
  rewrite Hresults. eexists. reflexivity.
Qed.

Context {W : Type} (h : Handler W) (env : Env).

(** X19. [findNearbyPlaces] does not throw, and every run has one of
    five shapes.  A failing Redis read ends the run with no place and
    no request to the provider; a cached list is returned as it is.  On
    a miss the provider is asked once.  A failed request and a status
    other than OK and ZERO_RESULTS give no place and write nothing to
    Redis.  With status OK or ZERO_RESULTS the filtered and converted
    places are written under the key with the places TTL, and they are
    returned if that write succeeds; if it fails the run returns no
    place. *)
Theorem findNearbyPlaces_run (coordinates : Coordinates) (radius : R) (w : W) :
  let key :=
    getCacheKey (latitude coordinates) (longitude coordinates) radius in
  let read := RedisGetPlaces key in
  let request := HttpPlacesNearby coordinates radius in
  let got := answer h read w in
  let fetched := answer h request got.2 in
  let r := run h (findNearbyPlaces env coordinates radius) w in
  match got.1 with
  | Throw _ => r = {| outcome := Ok []; world := got.2; trace := [read] |}
  | Ok (Some cached) =>
    r = {| outcome := Ok cached; world := got.2; trace := [read] |}
  | Ok None =>
    match fetched.1 with
    | Throw _ =>
      r = {| outcome := Ok []; world := fetched.2; trace := [read; request] |}
    | Ok response =>
      if decide (places_status response = "OK" \/
                 places_status response = "ZERO_RESULTS")
      then
        exists results,
          map_throwing toPlaceResult
            (filter isBuildingPlace (default [] (places_results response)))
          = Ok results /\
          let write := RedisSetexPlaces key (CACHE_TTL.PLACES env) results in
          let stored := answer h write fetched.2 in
          r = {| outcome :=
                   Ok match stored.1 with Ok _ => results | Throw _ => [] end;
                 world := stored.2;
                 trace := [read; request; write] |}
      else
        r = {| outcome := Ok []; world := fetched.2;
               trace := [read; request] |}
    end
  end.
Proof.
  intros key read request got fetched r. subst r.
  unfold findNearbyPlaces. fold key.
  rewrite run_try_catch, run_bind, run_perform. cbn [outcome world trace].
  fold read got.
  destruct (got.1) as [[cached |] | e]; run_simpl; try reflexivity.
  rewrite run_bind, run_perform. cbn [outcome world trace].
  fold request fetched.
  destruct (fetched.1) as [response | e]; run_simpl; [| reflexivity].
  destruct (decide (places_status response = "OK" \/
                    places_status response = "ZERO_RESULTS")) as [Hok | Hbad].
  - assert (Hcond :
      bool_decide (places_status response ≠ "OK") &&
      bool_decide (places_status response ≠ "ZERO_RESULTS") = false).
    { destruct Hok as [-> | ->]; reflexivity. }
    rewrite Hcond.
    destruct (map_throwing_filtered (default [] (places_results response)))
      as (results & Hresults).
    exists results. split; [exact Hresults |]. cbv zeta.
    rewrite run_bind, Hresults, run_lift. cbn [outcome world trace].
    rewrite run_bind, run_perform. cbn [outcome world trace].
    destruct ((answer h (RedisSetexPlaces key (CACHE_TTL.PLACES env) results)
                 fetched.2).1); run_simpl; reflexivity.
  - assert (Hcond :
      bool_decide (places_status response ≠ "OK") &&
      bool_decide (places_status response ≠ "ZERO_RESULTS") = true).
    { apply andb_true_iff. split; apply bool_decide_eq_true; tauto. }
    rewrite Hcond.
    assert (Hzero : bool_decide (places_status response = "ZERO_RESULTS") = false).
    { apply bool_decide_eq_false. tauto. }
    rewrite Hzero. run_simpl. reflexivity.
Qed.

End PlacesProperties.

(** * Further properties of geocoding.service.ts *)

Section GeocodingProperties.

Import Js Types Config World Geocoding.

Context {W : Type} (h : Handler W) (env : Env).

Lemma run_geocodeWithGoogle (coordinates : Coordinates) (w : W) :
  let request := HttpGoogleGeocode coordinates in
  exists result,
    run h (geocodeWithGoogle coordinates) w =
      {| outcome := Ok result; world := (answer h request w).2;
         trace := [request] |} /\
    forall found, result = Some found -> gr_source found = google_geocoding.
Proof.
  intros request. unfold geocodeWithGoogle.
  rewrite run_try_catch, run_bind, run_perform. cbn [outcome world trace].
  fold request.
  destruct (answer h request w) as [[response | e] w']; cbn [fst snd];
    run_simpl; [| eexists; split; [reflexivity | discriminate]].
  destruct (geocode_results response) as [[| result rest] |]; run_simpl;
    try (eexists; split; [reflexivity | discriminate]).
  destruct (bool_decide (geocode_status response ≠ "OK")); run_simpl;
    [eexists; split; [reflexivity | discriminate] |].
  destruct (rg_geometry result) as [geometry |]; run_simpl;
    [| eexists; split; [reflexivity | discriminate]].
  destruct (location geometry) as [loc |]; run_simpl;
    [| eexists; split; [reflexivity | discriminate]].
  eexists. split; [reflexivity |]. intros found [= <-]. reflexivity.
Qed.

Lemma run_geocodeWithNominatim (coordinates : Coordinates) (w : W) :
  let request := HttpNominatimReverse coordinates in
  exists result,
    run h (geocodeWithNominatim coordinates) w =
      {| outcome := Ok result; world := (answer h request w).2;
         trace := [request] |} /\
    forall found, result = Some found -> gr_source found = nominatim.
Proof.
  intros request. unfold geocodeWithNominatim.
  rewrite run_try_catch, run_bind, run_perform. cbn [outcome world trace].
  fold request.
  destruct (answer h request w) as [[[data |] | e] w']; cbn [fst snd];
    run_simpl; try (eexists; split; [reflexivity | discriminate]).
  destruct (truthy _); run_simpl;
    [eexists; split; [reflexivity | discriminate] |].
  eexists. split; [reflexivity |]. intros found [= <-]. reflexivity.
Qed.

(** X20. [reverseGeocode] does not throw and asks its providers in a
    fixed order.  A failing Redis read ends the run with no result and
    no request; a cached result is returned as it is.  On a miss Google
    is asked once; Nominatim is asked, once, only if Google gave no
    result.  A result of Google has source [google_geocoding], one of
    Nominatim has source [nominatim]; the result found is written under
    the key with the geocoding TTL and returned if that write succeeds,
    and the run returns no result if the write fails.  When neither
    provider has a result nothing is written. *)
Theorem reverseGeocode_run (coordinates : Coordinates) (w : W) :
  let key := getCacheKey (latitude coordinates) (longitude coordinates) in
  let read := RedisGetGeocode key in
  let askGoogle := HttpGoogleGeocode coordinates in
  let askNominatim := HttpNominatimReverse coordinates in
  let got := answer h read w in
  let google := run h (geocodeWithGoogle coordinates) got.2 in
  let osm := run h (geocodeWithNominatim coordinates) (world google) in
  let r := run h (reverseGeocode env coordinates) w in
  let written (asked : list Call) (result : GeocodingResult) (w' : W) :=
    let write := RedisSetexGeocode key (CACHE_TTL.GEOCODING env) result in
    r = {| outcome :=
             Ok match (answer h write w').1 with
                | Ok _ => Some result
                | Throw _ => None
                end;
           world := (answer h write w').2;
           trace := read :: asked ++ [write] |} in
  match got.1 with
  | Throw _ => r = {| outcome := Ok None; world := got.2; trace := [read] |}
  | Ok (Some cached) =>
    r = {| outcome := Ok (Some cached); world := got.2; trace := [read] |}
  | Ok None =>
    match outcome google with
    | Throw _ => False
    | Ok (Some result) =>
      gr_source result = google_geocoding /\
      written [askGoogle] result (world google)
    | Ok None =>
      match outcome osm with
      | Throw _ => False
      | Ok (Some result) =>
        gr_source result = nominatim /\
        written [askGoogle; askNominatim] result (world osm)
      | Ok None =>
        r = {| outcome := Ok None; world := world osm;
               trace := [read; askGoogle; askNominatim] |}
      end
    end
  end.
Proof.
  intros key read askGoogle askNominatim got google osm r written.
  subst r written. unfold reverseGeocode. fold key.
  rewrite run_try_catch, run_bind, run_perform. cbn [outcome world trace].
  fold read got.
  destruct (got.1) as [[cached |] | e]; run_simpl; try reflexivity.
  rewrite run_bind. fold google.
  destruct (run_geocodeWithGoogle coordinates got.2)
    as (fromGoogle & Hgoogle & Hsource).
  fold google askGoogle in Hgoogle.
  assert (Hog : outcome google = Ok fromGoogle) by (rewrite Hgoogle; reflexivity).
  assert (Htg : trace google = [askGoogle]) by (rewrite Hgoogle; reflexivity).
  clear Hgoogle. rewrite Hog, Htg. cbn [outcome world trace].
  destruct fromGoogle as [result |].
  - split; [apply Hsource; reflexivity |].
    rewrite run_bind. run_simpl. rewrite run_bind, run_perform.
    cbn [outcome world trace].
    destruct ((answer h (RedisSetexGeocode key (CACHE_TTL.GEOCODING env) result)
                 _).1); run_simpl; reflexivity.
  - rewrite run_bind. fold osm.
    destruct (run_geocodeWithNominatim coordinates (world google))
      as (fromOsm & Hosm & Hsource').
    fold osm askNominatim in Hosm.
    assert (Hoo : outcome osm = Ok fromOsm) by (rewrite Hosm; reflexivity).
    assert (Hto : trace osm = [askNominatim]) by (rewrite Hosm; reflexivity).
    clear Hosm. rewrite Hoo, Hto. cbn [outcome world trace].
    destruct fromOsm as [result |].
    + split; [apply Hsource'; reflexivity |].
      rewrite run_bind, run_perform. cbn [outcome world trace].
      destruct ((answer h (RedisSetexGeocode key (CACHE_TTL.GEOCODING env)
                             result) _).1); run_simpl; reflexivity.
    + run_simpl. reflexivity.
Qed.

End GeocodingProperties.

(** * The mobile client's geo.ts and formatting.ts *)

Section MobileProperties.

Import Js Bearing Mobile.
Local Open Scope R_scope.





End MobileProperties.

(** * The controller of POST /api/identify *)

Section ControllerProperties.

Import Js Types Config World Cache Places Identify Controller.

Context {W : Type} (h : Handler W) (env : Env).

(** X23. Whatever Redis, PostgreSQL and the providers answer, the
    controller replies with status 200: no failure of a service reaches
    it, so it never forwards an error.  The body holds the candidates of
    [identifyBuilding] and their number, the position and heading of
    the request, and as search radius the radius used for the search,
    which is the default of the environment when the request has none
    or has 0.  The controller makes the calls of [identifyBuilding] and
    no other. *)
Theorem identifyBuildingController_responds (body : IdentifyBuildingInput)
    (w : W) :
  let r := run h (identifyBuilding env body) w in
  let reply := run h (identifyBuildingController env body) w in
  trace reply = trace r /\ world reply = world r /\
  exists result,
    outcome r = Ok result /\
    outcome reply =
      Ok (Json 200
            {| res_candidates := candidates result;
               res_query :=
                 {| q_latitude := in_latitude body;
                    q_longitude := in_longitude body;
                    q_heading := in_heading body;
                    q_searchRadius :=
                      match in_searchRadius body with
                      | Some radius =>
                        if decide (radius = 0%R) then SEARCH_RADIUS_METERS env
                        else radius
                      | None => SEARCH_RADIUS_METERS env
                      end |};
               res_metadata :=
                 {| m_searchCenter :=
                      {| latitude := in_latitude body;
                         longitude := in_longitude body |};
                    m_timestamp := timestamp result;
                    m_resultCount := length (candidates result) |} |}).
Proof.
  intros r reply.
  destruct (returns_identifyBuilding env body W h w) as [result Hresult].
  fold r in Hresult.
  assert (Hfields :
    searchRadius result = searchRadiusOf env body /\
    searchCenter result = userCoordinatesOf body).
  { destruct (returns_getCachedIdentifyResults (userCoordinatesOf body)
                (in_heading body) (searchRadiusOf env body) W h w)
      as [[stored |] Hr0].
    - pose proof (run_identify_hit h env (findNearbyPlaces env) body w stored
                    Hr0) as Hr.
      fold (identifyBuilding env body) in Hr. fold r in Hr.
      rewrite Hr in Hresult. cbn [outcome] in Hresult.
      injection Hresult as <-. split; reflexivity.
    - pose proof (run_identify_miss h env (findNearbyPlaces env) body w Hr0)
        as Hr.
      cbv zeta in Hr.
      fold (identifyBuilding env body) in Hr. fold r in Hr.
      destruct (outcome (run h (gatherCandidates env (findNearbyPlaces env) _ _)
                           _)) as [gathered | e];
        rewrite Hr in Hresult; cbn [outcome] in Hresult; [| discriminate].
      injection Hresult as <-. split; reflexivity. }
  destruct Hfields as [Hradius Hcenter].
  assert (Hbody :
    {| in_latitude := in_latitude body; in_longitude := in_longitude body;
       in_heading := in_heading body;
       in_searchRadius := in_searchRadius body |} = body)
    by (destruct body; reflexivity).
  unfold reply, identifyBuildingController.
  rewrite run_try_catch, run_bind, Hbody. fold r. rewrite Hresult.
  cbn [outcome world trace]. rewrite app_nil_r, Hradius, Hcenter.
  split; [reflexivity |]. split; [reflexivity |].
  exists result. split; reflexivity.
Qed.

End ControllerProperties.

(** * The initial bearing along a meridian and along the equator *)

Section BearingCardinal.

Import Js Types Bearing.
Local Open Scope R_scope.





End BearingCardinal.

(** * The building cache on the table, written and read back *)

Section BuildingCacheRoundTrip.

Import Js Types Config World Database Cache.
Local Open Scope R_scope.

Context (uuid : list Row -> string) (now : R).
Context (near : R -> R -> R -> list Row -> list Row).

Let pg : Handler (list Row) := Postgres.handler uuid now near.

(** The row that an [INSERT] of the building adds to the table. *)
Let inserted (building : BuildingData) (table : list Row) : Row :=
  {| row_id := uuid table;
     row_external_id := or_string (bd_externalId building) None;
     row_source := bd_source building;
     row_name := or_string (bd_name building) None;
     row_address := bd_address building;
     row_latitude := bd_latitude building;
     row_longitude := bd_longitude building;
     row_metadata := JSON_stringify <$> bd_metadata building;
     row_created_at := now;
     row_updated_at := now;
     row_expires_at := bd_expiresAt building |}.

Lemma run_Date_now {W : Type} (h : Handler W) (w : W) :
  run h Date_now w = {| outcome := Ok (clock h w); world := w; trace := [] |}.
Proof. reflexivity. Qed.

Lemma run_saveBuildingToDatabase_insert (building : BuildingData)
    (table : list Row) :
  (forall externalId,
     bd_externalId building = Some externalId -> externalId <> EmptyString ->
     filter (Postgres.matches externalId (bd_source building)) table = []) ->
  outcome (run pg (saveBuildingToDatabase building) table) =
    Ok (Some (uuid table)) /\
  world (run pg (saveBuildingToDatabase building) table) =
    table ++ [inserted building table].
Proof.
  intros Hfresh.
  rewrite (run_saveBuildingToDatabase pg building table). cbv zeta.
  cbn [answer pg Postgres.handler Postgres.answers fst snd].
  destruct (truthy_string (bd_externalId building)) eqn:Htruthy.
  - destruct (bd_externalId building) as [externalId |] eqn:Hext;
      [| discriminate Htruthy].
    assert (Hnonempty : externalId <> EmptyString).
    { intros ->. discriminate Htruthy. }
    rewrite run_getBuildingByExternalId.
    cbn [answer pg Postgres.handler Postgres.answers fst snd outcome world
         trace default from_option Postgres.execute].
    unfold Datatypes.id. rewrite (Hfresh externalId eq_refl Hnonempty).
    cbn [head fmap option_fmap option_map].
    change (or_string None None) with (@None string). cbv iota.
    cbn [answer pg Postgres.handler Postgres.answers fst snd outcome world
         trace Postgres.execute returned_id row_id].
    unfold inserted. rewrite Hext. split; reflexivity.
  - cbn [outcome world trace fmap option_fmap option_map].
    change (or_string None None) with (@None string). cbv iota.
    cbn [answer pg Postgres.handler Postgres.answers fst snd outcome world
         trace Postgres.execute returned_id row_id].
    split; reflexivity.
Qed.


(** X26. A candidate written to the table by [saveBuildingToCache] and
    read back by [getCachedBuildings]: when the candidate has an
    external id that no row of its source has yet, the save adds one
    row, and every candidate that a later radius query returns for
    that row has the id of the row, source [cache], the external id,
    address and coordinates of the saved candidate, its name unless
    that is empty, distance, bearing and confidence 0, and as metadata
    the merged metadata of the save without its undefined keys. *)
Theorem saveBuildingToCache_read_back (candidate : BuildingCandidate)
    (ttlSeconds : R) (externalId : string) (table : list Row)
    (coordinates : Coordinates) (radiusMeters : R) :
  c_externalId candidate = Some externalId ->
  externalId <> EmptyString ->
  c_source candidate <> cache ->
  filter (Postgres.matches externalId (source_string (c_source candidate)))
    table = [] ->
  Forall (fun row => row_id row <> uuid table) table ->
  (forall t row,
     row ∈ near (longitude coordinates) (latitude coordinates) radiusMeters t ->
     row ∈ t) ->
  let saved := run pg (saveBuildingToCache candidate ttlSeconds) table in
  let read :=
    run pg (getCachedBuildings coordinates radiusMeters) (world saved) in
  outcome saved = Ok (Some (uuid table)) /\
  length (world saved) = S (length table) /\
  exists found,
    outcome read = Ok found /\
    forall c, c ∈ found -> c_id c = Some (uuid table) ->
      c = {| c_id := Some (uuid table);
             c_externalId := Some externalId;
             c_name := or_string (c_name candidate) None;
             c_address := c_address candidate;
             c_coordinates := c_coordinates candidate;
             c_distance := 0;
             c_bearing := 0;
             c_bearingDiff := None;
             c_confidence := 0;
             c_source := cache;
             c_metadata := Some (JSON_stringify (mergedMetadata candidate)) |}.
Proof.
  intros Hext Hnonempty Hsource Hfilter Hids Hnear saved read.
  set (building :=
    {| bd_externalId := c_externalId candidate;
       bd_source := source_string (c_source candidate);
       bd_name := c_name candidate;
       bd_address := c_address candidate;
       bd_latitude := latitude (c_coordinates candidate);
       bd_longitude := longitude (c_coordinates candidate);
       bd_metadata := Some (mergedMetadata candidate);
       bd_expiresAt := Some (now + ttlSeconds * 1000) |}).
  assert (Hsaved :
    outcome saved = Ok (Some (uuid table)) /\
    world saved = table ++ [inserted building table]).
  { unfold saved, saveBuildingToCache.
    rewrite run_rethrow, run_bind, run_Date_now.
    cbn [outcome world trace clock pg Postgres.handler].
    rewrite decide_False by exact Hsource. fold building.
    rewrite run_bind.
    destruct (run_saveBuildingToDatabase_insert building table) as [Hout Hworld].
    { intros e He _. cbn in He. rewrite Hext in He. injection He as <-.
      exact Hfilter. }
    rewrite Hout. cbn [outcome world trace]. rewrite Hworld.
    split; reflexivity. }
  destruct Hsaved as [Hout Hworld].
  split; [exact Hout |]. split.
  { rewrite Hworld, length_app. cbn [length]. lia. }
  destruct (returns_getCachedBuildings coordinates radiusMeters _ pg
              (world saved)) as [found Hfound].
  fold read in Hfound. exists found. split; [exact Hfound |].
  intros c Hc Hid.
  assert (Hrows : exists rows,
            found = map cachedBuildingToCandidate (map rowToCachedBuilding rows) /\
            forall row, row ∈ rows -> row ∈ world saved).
  { unfold read, getCachedBuildings, findBuildingsNearLocation in Hfound.
    rewrite run_try_catch, !run_bind, run_perform in Hfound.
    cbn [answer pg Postgres.handler Postgres.answers fst snd outcome world
         trace] in Hfound.
    rewrite run_try_finally, run_rethrow, run_bind, !run_perform in Hfound.
    cbn [answer pg Postgres.handler Postgres.answers fst snd outcome world
         trace Postgres.execute] in Hfound.
    injection Hfound as <-. eexists. split; [reflexivity |].
    intros row. apply Hnear. }
  destruct Hrows as (rows & -> & Hsub).
  rewrite map_map in Hc. apply list_elem_of_fmap in Hc as (row & -> & Hrow).
  apply Hsub in Hrow. rewrite Hworld in Hrow.
  cbn [cachedBuildingToCandidate rowToCachedBuilding c_id cb_id] in Hid.
  injection Hid as Hid.
  apply elem_of_app in Hrow as [Hold | Hnew].
  - rewrite Forall_forall in Hids. exfalso. exact (Hids row Hold Hid).
  - apply list_elem_of_singleton in Hnew as ->.
    unfold inserted, building, cachedBuildingToCandidate, rowToCachedBuilding.
    cbn. rewrite Hext.
    assert (Hor : or_string (Some externalId) None = Some externalId).
    { unfold or_string, truthy_string.
      rewrite decide_False by exact Hnonempty. reflexivity. }
    rewrite Hor. destruct (c_coordinates candidate). reflexivity.
Qed.

End BuildingCacheRoundTrip.


Lemma saveBuildingToCache_read_back_witness :
  World.outcome
    (World.run (Postgres.handler (fun _ => "b-1") 0 (fun _ _ _ table => table))
       (Cache.saveBuildingToCache Scenario.cafe 604800) [])
  = World.Ok (Some "b-1").
Proof.
  apply (saveBuildingToCache_read_back (fun _ => "b-1") 0
           (fun _ _ _ table => table) Scenario.cafe 604800 "ChIJ-cafe" []
           {| Types.latitude := 0; Types.longitude := 0 |} 100).
  - reflexivity.
  - discriminate.
  - discriminate.
  - reflexivity.
  - constructor.
  - intros t row Hrow. exact Hrow.
Defined.
